(** * EDA_housing_market: the layered map composer ([geo_plot.py]) and the
      normalisation helper ([cust_func.py])

    A shallow embedding of the Python sources.

    - Numbers.  A column of dtype [int64] holds integers [Z] (taken to lie
      in the [int64] range) and its arithmetic wraps around as numpy's
      does.  A column of dtype [float64] holds rationals [Q]: the values
      are exact, and so are the results of float arithmetic, which in
      pandas are rounded to the nearest float64 and overflow to an
      infinity.  What is kept of the floating-point arithmetic is its
      behaviour on a zero divisor ([0/0] is [NaN], [x/0] is an infinity:
      pandas raises nothing there) and the exact values of the float
      literals that the code compares with.  The statements about
      normalised values are made for columns of whole numbers of magnitude
      at most [2^52], on which the subtractions of the code are exact in
      pandas too.  Missing values inside a column are excluded by the
      column types.
    - Strings are [String.string]; the two string operations of
      [add_schools_layer] are taken over ASCII.
    - Objects that the Python code mutates (the DataFrame handed to a layer
      builder, the plotly figure) are threaded explicitly through a state
      and exception monad: the state survives a raised exception, as the
      mutated objects do in Python.
    - plotly is an external library: [Figure.add_trace] and
      [Figure.update_layout] are embedded for the properties that
      [geo_plot.py] sets, following [plotly.basedatatypes], and so is the
      validation of [marker.size], which rejects [nan] and negative
      numbers.  Whether [fig.show()] and [fig.write_image(path)] raise is
      given from outside.
    - Of [cust_func.py] the two annotation functions of the correlation
      grid are embedded, with the correlation and its p-value taken from
      pandas and scipy as given; of [eda_tables.py], the table of missing
      values that [explore] computes before printing it. *)

From Stdlib Require Import ZArith QArith Qabs Qminmax Qfield Lqa String Ascii List Lia.
From stdpp Require Import base option strings pretty gmap.
Import ListNotations.

Local Open Scope string_scope.
Local Open Scope list_scope.

(** ** Python values and exceptions *)

Module Py.

(** The exceptions that the embedded code can raise. *)
Inductive exn : Type :=
| ValueError (msg : string)
| KeyError (key : string)
| TypeError (msg : string)
| AttributeError (msg : string).

(** A JSON value, as [json.load] returns it (the GeoJSON dictionaries
    [counties] and [parks]). *)
#[local] Unset Elimination Schemes.
Inductive json : Type :=
| JNull
| JBool (b : bool)
| JNum (q : Q)
| JStr (s : string)
| JArr (items : list json)
| JObj (fields : list (string * json)).
#[local] Set Elimination Schemes.

(** *** A float64 result, rounding abstracted *)

Inductive fnum : Type :=
| Finite (q : Q)
| Inf (negative : bool)
| NaN.

(** What the embedding does not compute: the text of a float
    ([str(3.0) = '3.0']), Python's [int(s)] on a string, and the text of
    the error with which plotly rejects an array given as
    [marker.size]. *)
Class Runtime : Type := {
  float_repr : Q -> string;
  int_of_str : string -> option Z;
  size_error_text : list fnum -> string
}.

(** [str(n)] for an [int]. *)
Definition str_of_int (n : Z) : string := pretty n.

(** Truncation of a finite float towards zero. *)
Definition int_of_float (q : Q) : Z := Z.quot (Qnum q) (Z.pos (Qden q)).

(** The float64 values of the literals [0.05], [0.01], [0.001] and
    [0.7]: the nearest doubles (the first three a little above the
    decimal fraction, the last a little below). *)
Definition float_0_05 : Q := 3602879701896397 # 72057594037927936.
Definition float_0_01 : Q := 5764607523034235 # 576460752303423488.
Definition float_0_001 : Q := 1152921504606847 # 1152921504606846976.
Definition float_0_7 : Q := 3152519739159347 # 4503599627370496.

Definition fsub (a b : fnum) : fnum :=
  match a, b with
  | NaN, _ | _, NaN => NaN
  | Finite x, Finite y => Finite (x - y)
  | Finite _, Inf s => Inf (negb s)
  | Inf s, Finite _ => Inf s
  | Inf s, Inf t => if Bool.eqb s t then NaN else Inf s
  end.

Definition fadd (a b : fnum) : fnum :=
  match a, b with
  | NaN, _ | _, NaN => NaN
  | Finite x, Finite y => Finite (x + y)
  | Finite _, Inf s => Inf s
  | Inf s, Finite _ => Inf s
  | Inf s, Inf t => if Bool.eqb s t then Inf s else NaN
  end.

Definition Qsign_neg (q : Q) : bool := (Qnum q <? 0)%Z.
Definition Qis_zero (q : Q) : bool := (Qnum q =? 0)%Z.

Definition fmul (a b : fnum) : fnum :=
  match a, b with
  | NaN, _ | _, NaN => NaN
  | Finite x, Finite y => Finite (x * y)
  | Finite x, Inf s | Inf s, Finite x =>
      if Qis_zero x then NaN else Inf (xorb s (Qsign_neg x))
  | Inf s, Inf t => Inf (xorb s t)
  end.

(** Division as numpy performs it on float64 (no exception on a zero
    divisor): [0/0 = nan], [x/0 = ±inf]. *)
Definition fdiv (a b : fnum) : fnum :=
  match a, b with
  | NaN, _ | _, NaN => NaN
  | Finite x, Finite y =>
      if Qis_zero y then
        if Qis_zero x then NaN else Inf (Qsign_neg x)
      else Finite (x / y)
  | Finite _, Inf _ => Finite 0
  | Inf s, Finite y => Inf (xorb s (Qsign_neg y))
  | Inf _, Inf _ => NaN
  end.

(** Equality of float results as numbers: finite values are compared as
    rationals, [NaN] is recognised as [NaN]. *)
Definition fnum_eqb (a b : fnum) : bool :=
  match a, b with
  | Finite x, Finite y => Qeq_bool x y
  | Inf s, Inf t => Bool.eqb s t
  | NaN, NaN => true
  | _, _ => false
  end.

Definition is_nan (a : fnum) : bool :=
  match a with NaN => true | _ => false end.

(** [abs(x)] *)
Definition fabs (a : fnum) : fnum :=
  match a with
  | Finite q => Finite (Qabs q)
  | Inf _ => Inf false
  | NaN => NaN
  end.

(** [x <= c] for a float [x] and a finite constant: false on [nan]. *)
Definition fle (a : fnum) (c : Q) : bool :=
  match a with
  | Finite q => Qle_bool q c
  | Inf negative => negative
  | NaN => false
  end.

(** *** State and exception monad

    [M S A]: a computation over mutable objects [S] that returns an [A]
    or raises; the state is returned in both cases. *)
Definition M (S A : Type) : Type := S -> (exn + A) * S.

Definition ret {S A} (a : A) : M S A := fun s => (inr a, s).
Definition raise {S A} (e : exn) : M S A := fun s => (inl e, s).
Definition bind {S A B} (m : M S A) (k : A -> M S B) : M S B :=
  fun s => match m s with
           | (inr a, s') => k a s'
           | (inl e, s') => (inl e, s')
           end.
Definition modify {S} (f : S -> S) : M S unit := fun s => (inr tt, f s).

(** A pure step that may raise. *)
Definition lift {S A} (r : exn + A) : M S A :=
  match r with inl e => raise e | inr a => ret a end.

(** [for x in xs: body(x)] *)
Fixpoint for_each {S A} (xs : list A) (body : A -> M S unit) : M S unit :=
  match xs with
  | [] => ret tt
  | x :: rest => bind (body x) (fun _ => for_each rest body)
  end.

End Py.

Import Py.

Notation "x <- c1 ;; c2" := (Py.bind c1 (fun x => c2))
  (at level 100, c1 at next level, right associativity).
Notation "c1 ;;; c2" := (Py.bind c1 (fun _ => c2))
  (at level 100, right associativity).

(** ** Python [str] methods used by the school layer (ASCII) *)

Module PyStr.

Definition lower (c : ascii) : ascii :=
  let n := nat_of_ascii c in
  if ((65 <=? n) && (n <=? 90))%nat then ascii_of_nat (n + 32) else c.

(** Does [p] occur at the head of [s], letter case ignored? *)
Fixpoint starts_with_ci (p s : string) : bool :=
  match p, s with
  | EmptyString, _ => true
  | String _ _, EmptyString => false
  | String a p', String b s' =>
      Ascii.eqb (lower a) (lower b) && starts_with_ci p' s'
  end.

(** [re.sub(re.escape(p), '', s, flags=re.IGNORECASE)] for a non-empty
    [p]: every leftmost, non-overlapping occurrence is removed.  [skip]
    counts the characters of the current occurrence still to drop. *)
Fixpoint remove_ci_go (p : string) (skip : nat) (s : string) : string :=
  match s with
  | EmptyString => EmptyString
  | String c s' =>
      match skip with
      | S k => remove_ci_go p k s'
      | O => if starts_with_ci p s
             then remove_ci_go p (String.length p - 1) s'
             else String c (remove_ci_go p O s')
      end
  end.

Definition remove_ci (p s : string) : string := remove_ci_go p 0 s.

(** [c.isspace()] on ASCII. *)
Definition isspace (c : ascii) : bool :=
  let n := nat_of_ascii c in
  (((9 <=? n) && (n <=? 13)) || ((28 <=? n) && (n <=? 32)))%nat.

Fixpoint lstrip_list (l : list ascii) : list ascii :=
  match l with
  | c :: l' => if isspace c then lstrip_list l' else l
  | [] => []
  end.

(** [s.strip()] *)
Definition strip (s : string) : string :=
  string_of_list_ascii
    (rev (lstrip_list (rev (lstrip_list (list_ascii_of_string s))))).

(** [s.replace(old, new)] for a non-empty [old]: every leftmost,
    non-overlapping occurrence is replaced.  [skip] counts the characters
    of the current occurrence still to drop. *)
Fixpoint replace_go (old new : string) (skip : nat) (s : string) : string :=
  match s with
  | EmptyString => EmptyString
  | String c s' =>
      match skip with
      | S k => replace_go old new k s'
      | O => if String.prefix old s
             then new +:+ replace_go old new (String.length old - 1) s'
             else String c (replace_go old new O s')
      end
  end.

Definition replace (old new s : string) : string := replace_go old new 0 s.

(** [f"{x:2.2f}"]: fixed point with two decimals, the exact value rounded
    half to even; the minimum width 2 never pads.  [hundredths q] is
    [|q| * 100] rounded. *)
Definition hundredths (q : Q) : Z :=
  let num := (Z.abs (Qnum q) * 100)%Z in
  let den := Z.pos (Qden q) in
  let f := (num / den)%Z in
  match (2 * (num mod den) ?= den)%Z with
  | Lt => f
  | Gt => (f + 1)%Z
  | Eq => if Z.even f then f else (f + 1)%Z
  end.

Definition fixed2 (negative : bool) (n : Z) : string :=
  (if negative then "-" else "")
  +:+ pretty (n / 100)%Z +:+ "."
  +:+ pretty ((n mod 100) / 10)%Z +:+ pretty ((n mod 100) mod 10)%Z.

Definition format_2f (x : fnum) : string :=
  match x with
  | Finite q => fixed2 (Qsign_neg q) (hundredths q)
  | Inf negative => if negative then "-inf" else "inf"
  | NaN => "nan"
  end.

End PyStr.

(** ** pandas: columns and DataFrames *)

Module Pandas.

(** A column (a [Series]) with its dtype. *)
Inductive column : Type :=
| IntCol (xs : list Z)
| FloatCol (xs : list Q)
| StrCol (xs : list string).

(** A DataFrame: its columns by name.  All columns of a DataFrame have
    the same number of rows; the element-wise operations below pair the
    rows of two columns in order. *)
Abbreviation DataFrame := (gmap string column).

(** [col in df.columns] *)
Definition has_column (df : DataFrame) (col : string) : bool :=
  match df !! col with Some _ => true | None => false end.

(** [df[col]] *)
Definition getitem (df : DataFrame) (col : string) : exn + column :=
  match df !! col with
  | Some c => inr c
  | None => inl (KeyError col)
  end.

(** [df[col] = c] *)
Definition setitem (df : DataFrame) (col : string) (c : column) : DataFrame :=
  <[col := c]> df.

(** *** [int64] arithmetic *)

Definition int64_min : Z := (- 2 ^ 63)%Z.
Definition int64_max : Z := (2 ^ 63 - 1)%Z.

(** The [int64] that an integer result wraps around to. *)
Definition int64_wrap (z : Z) : Z := ((z + 2 ^ 63) mod 2 ^ 64 - 2 ^ 63)%Z.

(** [a - b] on [int64]. *)
Definition int64_sub (a b : Z) : Z := int64_wrap (a - b).

(** The cast of a finite float to [int64]. *)
Definition int64_of_float (q : Q) : Z :=
  let t := int_of_float q in
  if ((int64_min <=? t) && (t <=? int64_max))%Z then t else int64_min.

(** The cast of an [int64] to float64 (exact up to [2^53], rounded
    beyond; taken exact). *)
Definition float_of_int64 (z : Z) : fnum := Finite (inject_Z z).

Section Conversions.
Context `{Runtime}.

(** [series.astype(str)] *)
Definition astype_str (c : column) : list string :=
  match c with
  | IntCol xs => map str_of_int xs
  | FloatCol xs => map float_repr xs
  | StrCol xs => xs
  end.

Fixpoint parse_ints (xs : list string) : exn + list Z :=
  match xs with
  | [] => inr []
  | x :: rest =>
      match int_of_str x with
      | None =>
          inl (ValueError
                 ("invalid literal for int() with base 10: '" +:+ x +:+ "'"))
      | Some n =>
          match parse_ints rest with
          | inl e => inl e
          | inr ns => inr (n :: ns)
          end
      end
  end.

(** [series.astype(int)]: a float is truncated; beyond the [int64] range
    the cast gives the least [int64]. *)
Definition astype_int (c : column) : exn + list Z :=
  match c with
  | IntCol xs => inr xs
  | FloatCol xs => inr (map int64_of_float xs)
  | StrCol xs => parse_ints xs
  end.
End Conversions.

(** ['lit' + series] and [series + 'lit'] on strings. *)
Definition str_radd (lit : string) (xs : list string) : list string :=
  map (fun x => lit +:+ x) xs.
Definition str_add_lit (xs : list string) (lit : string) : list string :=
  map (fun x => x +:+ lit) xs.

(** [series + series] on strings, row by row. *)
Fixpoint str_add (xs ys : list string) : list string :=
  match xs, ys with
  | x :: xs', y :: ys' => (x +:+ y) :: str_add xs' ys'
  | _, _ => []
  end.

(** [series.str]: only a column of strings has the accessor. *)
Definition str_accessor (c : column) : exn + list string :=
  match c with
  | StrCol xs => inr xs
  | _ => inl (AttributeError "Can only use .str accessor with string values!")
  end.

(** [.str.replace(pat, '', case=False)] and [.str.strip()] *)
Definition str_replace_ci (pat : string) (xs : list string) : list string :=
  map (PyStr.remove_ci pat) xs.
Definition str_strip (xs : list string) : list string :=
  map PyStr.strip xs.

(** *** Numeric series *)

(** [series.min()] and [series.max()]: [nan] on an empty series. *)
Definition series_min (xs : list Q) : fnum :=
  match xs with
  | [] => NaN
  | x :: rest => Finite (fold_left Qmin rest x)
  end.

Definition series_max (xs : list Q) : fnum :=
  match xs with
  | [] => NaN
  | x :: rest => Finite (fold_left Qmax rest x)
  end.

(** The same on an [int64] series: [None] stands for the [nan] of an
    empty series. *)
Definition int_series_min (xs : list Z) : option Z :=
  match xs with
  | [] => None
  | x :: rest => Some (fold_left Z.min rest x)
  end.

Definition int_series_max (xs : list Z) : option Z :=
  match xs with
  | [] => None
  | x :: rest => Some (fold_left Z.max rest x)
  end.

(** The numbers that a numeric column holds; a column of strings holds
    none, and its subtraction raises. *)
Definition numeric (c : column) : exn + list Q :=
  match c with
  | IntCol xs => inr (map inject_Z xs)
  | FloatCol xs => inr xs
  | StrCol _ =>
      inl (TypeError "unsupported operand type(s) for -: 'str' and 'str'")
  end.

End Pandas.

Import Pandas.

(** ** cust_func.py *)

Module CustFunc.

(** [normalize_column(series)]:
    [(series - series.min()) / (series.max() - series.min())],
    on a float64 series. *)
Definition normalize_column (series : list Q) : list fnum :=
  map (fun v => fdiv (fsub (Finite v) (series_min series))
                     (fsub (series_max series) (series_min series)))
      series.

(** The same expression on an [int64] series: both subtractions are
    [int64] subtractions, the division is the float division of the two
    integers. *)
Definition normalize_column_int64 (series : list Z) : list fnum :=
  match int_series_min series, int_series_max series with
  | Some mn, Some mx =>
      map (fun v => fdiv (float_of_int64 (int64_sub v mn))
                         (float_of_int64 (int64_sub mx mn)))
          series
  | _, _ => []
  end.

(** What [cust_func.py] takes from pandas and scipy:
    [a.corr(b, 'pearson')] (a float, [nan] when undefined) and
    [stats.pearsonr(x, y)] (the pair [(r, p)], or an exception). *)
Class Stats : Type := {
  series_corr : list Q -> list Q -> fnum;
  pearsonr : list Q -> list Q -> exn + (fnum * fnum)
}.

(** What [corrdot] draws on the current axes: one dot and one text. *)
Record CorrDot : Type := mkCorrDot {
  dot_size : fnum;
  dot_value : fnum;
  dot_text : string;
  dot_fontsize : fnum
}.

(** [corr_text = f"{corr_r:2.2f}".replace("0.", ".")] *)
Definition corr_text (corr_r : fnum) : string :=
  PyStr.replace "0." "." (PyStr.format_2f corr_r).

Definition corrdot `{Stats} (a b : list Q) : CorrDot :=
  let corr_r := series_corr a b in
  let marker_size := fmul (fabs corr_r) (Finite 10000) in
  let font_size := fadd (fmul (fabs corr_r) (Finite 40)) (Finite 5) in
  mkCorrDot marker_size corr_r (corr_text corr_r) font_size.

(** The three consecutive [if]s of [corrfunc]: the p-value, a float, is
    compared with the floats [0.05], [0.01] and [0.001]. *)
Definition p_stars (p : fnum) : string :=
  let stars := "" in
  let stars := if fle p float_0_05 then "*" else stars in
  let stars := if fle p float_0_01 then "**" else stars in
  let stars := if fle p float_0_001 then "***" else stars in
  stars.

(** [corrfunc(x, y)]: the text that is annotated at [(0.75, 0.7)]. *)
Definition corrfunc `{Stats} (x y : list Q) : exn + (string * (Q * Q)) :=
  match pearsonr x y with
  | inl e => inl e
  | inr (r, p) => inr (p_stars p, (3 # 4, float_0_7))
  end.

End CustFunc.

(** ** eda_tables.py *)

Module EdaTables.

(** A cell of a DataFrame that may be missing ([None]: [NaN] or [None]). *)
Inductive cell : Type :=
| CInt (n : Z)
| CFloat (q : Q)
| CStr (s : string).

(** The DataFrame that [explore] reports on: [len(df)] rows, and the
    columns in their order, each with one entry per row. *)
Record Frame : Type := mkFrame {
  nrows : nat;
  columns : list (string * list (option cell))
}.

Definition well_formed (df : Frame) : Prop :=
  Forall (fun c => length (snd c) = nrows df) (columns df).

(** [df[col].isna().sum()] *)
Fixpoint isna_sum (col : list (option cell)) : nat :=
  match col with
  | [] => 0
  | None :: rest => S (isna_sum rest)
  | Some _ :: rest => isna_sum rest
  end.

(** A row of [missing_df]. *)
Record MissingRow : Type := mkMissingRow {
  mr_column : string;
  mr_sum : nat;
  mr_perc : fnum
}.

(** [missing_df] of [explore]: per column, [sum_missing] and
    [perc_missing = (sum_missing / len(df)) * 100]. *)
Definition missing_df (df : Frame) : list MissingRow :=
  map (fun c =>
         let sum_missing := isna_sum (snd c) in
         mkMissingRow (fst c) sum_missing
           (fmul (fdiv (Finite (inject_Z (Z.of_nat sum_missing)))
                       (Finite (inject_Z (Z.of_nat (nrows df)))))
                 (Finite 100)))
      (columns df).

End EdaTables.

(** ** plotly: traces, layout, figure *)

Module Plotly.

(** A data array of a trace: a column, or the literal [[None]]. *)
Inductive data_array : Type :=
| Data (c : column)
| NoneData.

Inductive marker_size : Type :=
| SizeArray (xs : list fnum)
| SizeNumber (q : Q).

Record Marker : Type := mkMarker {
  m_size : marker_size;
  m_color : string;
  m_opacity : option Q;
  m_symbol : option string
}.

Record Line : Type := mkLine {
  ln_width : Q;
  ln_color : string
}.

(** [go.Scattermapbox(...)], with the properties the builders set. *)
Record ScatterProps : Type := mkScatter {
  sc_lat : data_array;
  sc_lon : data_array;
  sc_mode : string;
  sc_marker : option Marker;
  sc_line : option Line;
  sc_text : option column;
  sc_hoverinfo : option string;
  sc_name : string;
  sc_showlegend : bool
}.

(** [go.Choroplethmapbox(...)] *)
Record ChoroplethProps : Type := mkChoropleth {
  ch_geojson : json;
  ch_locations : column;
  ch_z : column;
  ch_colorscale : string;
  ch_showscale : bool;
  ch_marker_opacity : Q;
  ch_featureidkey : string;
  ch_name : string;
  ch_text : column;
  ch_hoverinfo : string;
  ch_showlegend : bool
}.

Inductive Trace : Type :=
| Scattermapbox (p : ScatterProps)
| Choroplethmapbox (p : ChoroplethProps).

Definition trace_name (t : Trace) : string :=
  match t with
  | Scattermapbox p => sc_name p
  | Choroplethmapbox p => ch_name p
  end.

Definition is_choropleth (t : Trace) : bool :=
  match t with Choroplethmapbox _ => true | Scattermapbox _ => false end.

(** One entry of [layout.mapbox.layers].  [ly_other] stands for the
    properties that [geo_plot.py] never names ([below], [opacity],
    [visible], ...). *)
Record MapboxLayer : Type := mkLayer {
  ly_sourcetype : option string;
  ly_source : option json;
  ly_type : option string;
  ly_color : option string;
  ly_line_width : option Q;
  ly_other : list (string * json)
}.

(** A dict literal for such an entry: the keys it gives are [Some]. *)
Record LayerDict : Type := mkLayerDict {
  ld_sourcetype : option string;
  ld_source : option json;
  ld_type : option string;
  ld_color : option string;
  ld_line_width : option Q
}.

Record Legend : Type := mkLegend {
  lg_title_text : option string;
  lg_orientation : option string;
  lg_yanchor : option string;
  lg_y : option Q;
  lg_xanchor : option string;
  lg_x : option Q
}.

Record Margin : Type := mkMargin {
  mg_r : option Q;
  mg_t : option Q;
  mg_l : option Q;
  mg_b : option Q
}.

Record Layout : Type := mkLayout {
  mapbox_style : option string;
  mapbox_zoom : option Q;
  mapbox_center_lat : option Q;
  mapbox_center_lon : option Q;
  mapbox_layers : list MapboxLayer;
  margin : Margin;
  legend : Legend;
  width : option Q;
  height : option Q
}.

Record Figure : Type := mkFigure {
  data : list Trace;
  layout : Layout
}.

(** [go.Figure()] *)
Definition empty_layout : Layout :=
  mkLayout None None None None []
           (mkMargin None None None None)
           (mkLegend None None None None None None)
           None None.

Definition new_figure : Figure := mkFigure [] empty_layout.

(** [fig.add_trace(t)] *)
Definition add_trace (t : Trace) (fig : Figure) : Figure :=
  mkFigure (data fig ++ [t]) (layout fig).

(** *** [update_layout] on the array [mapbox.layers]

    [BaseFigure._perform_update], branch for an array of compound
    objects: an empty (or unset) array takes the given list as it is;
    a non-empty array is kept, every element of it is updated from the
    given list (element [i] from entry [i mod len]), and only the
    entries of the given list beyond the array's length are appended. *)

Definition override {A} (new old : option A) : option A :=
  match new with Some v => Some v | None => old end.

(** The entry built from a dict. *)
Definition layer_of_dict (d : LayerDict) : MapboxLayer :=
  mkLayer (ld_sourcetype d) (ld_source d) (ld_type d) (ld_color d)
          (ld_line_width d) [].

(** An existing entry updated from a dict: the keys of the dict are
    assigned, everything else stays. *)
Definition update_layer (d : LayerDict) (l : MapboxLayer) : MapboxLayer :=
  mkLayer (override (ld_sourcetype d) (ly_sourcetype l))
          (override (ld_source d) (ly_source l))
          (override (ld_type d) (ly_type l))
          (override (ld_color d) (ly_color l))
          (override (ld_line_width d) (ly_line_width l))
          (ly_other l).

Fixpoint update_elements (i : nat) (cur : list MapboxLayer)
         (val : list LayerDict) : list MapboxLayer :=
  match cur with
  | [] => []
  | l :: rest =>
      match nth_error val (i mod length val) with
      | Some d => update_layer d l
      | None => l
      end :: update_elements (S i) rest val
  end.

Definition update_layers (cur : list MapboxLayer) (val : list LayerDict)
  : list MapboxLayer :=
  match cur with
  | [] => map layer_of_dict val
  | _ :: _ =>
      update_elements 0 cur val
        ++ map layer_of_dict (skipn (length cur) val)
  end.

(** [fig.update_layout(mapbox_layers=val)] *)
Definition update_layout_mapbox_layers (val : list LayerDict) (fig : Figure)
  : Figure :=
  let l := layout fig in
  mkFigure (data fig)
    (mkLayout (mapbox_style l) (mapbox_zoom l) (mapbox_center_lat l)
              (mapbox_center_lon l) (update_layers (mapbox_layers l) val)
              (margin l) (legend l) (width l) (height l)).

(** *** [go.scattermapbox.Marker(size=array, color=c)]

    The constructor validates [size], a number or an array of numbers
    with [min = 0]: an element passes when [0 <= x] holds, which fails
    for [nan] and for a negative number; one failing element makes the
    constructor raise [ValueError]. *)
Definition size_accepted (x : fnum) : bool :=
  match x with
  | Finite q => Qle_bool 0 q
  | Inf negative => negb negative
  | NaN => false
  end.

Definition scattermapbox_marker `{Runtime} (sizes : list fnum) (color : string)
  : exn + Marker :=
  if forallb size_accepted sizes
  then inr (mkMarker (SizeArray sizes) color None None)
  else inl (ValueError (size_error_text sizes)).

(** What the user is shown and what is written to disk. *)
Inductive event : Type :=
| Show (fig : Figure)
| WriteImage (path : string) (fig : Figure).

(** What the embedding does not compute: whether [fig.show()] and
    [fig.write_image(path)] raise (no renderer, an unknown file format,
    an I/O error), and with which exception. *)
Class Renderer : Type := {
  show_error : Figure -> option exn;
  write_image_error : string -> Figure -> option exn
}.

End Plotly.

Import Plotly.

(** ** geo_plot.py *)

Module GeoPlot.

(** The objects a layer builder works on: the DataFrame and the figure
    it was handed. *)
Definition objects : Type := DataFrame * Figure.

Definition df_has (col : string) : M objects bool :=
  fun s => (inr (has_column (fst s) col), s).
Definition df_get (col : string) : M objects column :=
  fun s => (getitem (fst s) col, s).
Definition df_set (col : string) (c : column) : M objects unit :=
  modify (fun s => (setitem (fst s) col c, snd s)).
Definition fig_add_trace (t : Trace) : M objects unit :=
  modify (fun s => (fst s, add_trace t (snd s))).

(** The loop both validating builders start with. *)
Definition ensure_columns (required_columns : list string) : M objects unit :=
  for_each required_columns (fun col =>
    present <- df_has col ;;
    if negb present
    then raise (ValueError ("Missing required column: " +:+ col))
    else ret tt).

(** The closure [normalize_column] of [plotting_houses], on a column:
    [(column - column.min()) / (column.max() - column.min())] with the
    arithmetic of the column's dtype; strings have no subtraction. *)
Definition normalize_column (c : column) : exn + list fnum :=
  match c with
  | IntCol xs =>
      match int_series_min xs, int_series_max xs with
      | Some mn, Some mx =>
          inr (map (fun v => fdiv (float_of_int64 (int64_sub v mn))
                                  (float_of_int64 (int64_sub mx mn)))
                   xs)
      | _, _ => inr []
      end
  | FloatCol xs =>
      inr (map (fun v => fdiv (fsub (Finite v) (series_min xs))
                              (fsub (series_max xs) (series_min xs)))
               xs)
  | StrCol _ =>
      inl (TypeError "unsupported operand type(s) for -: 'str' and 'str'")
  end.

(** [(normalize_column(df[price_col]) + 1) * 10] *)
Definition marker_sizes (c : column) : exn + list fnum :=
  match normalize_column c with
  | inl e => inl e
  | inr ns => inr (map (fun n => fmul (fadd n (Finite 1)) (Finite 10)) ns)
  end.

Definition houses_legend : string :=
  "Houses <br>cheap (small) to expensive (large)".
Definition choropleth_legend : string :=
  "Average house quality <br>low (dark red) to high (bright yellow)".
Definition parks_legend : string := "Park outlines".
Definition schools_legend : string := "Schools".

Section Builders.
Context `{Runtime}.

Definition plotting_houses
    (price_col quality_col bedrooms_col lat_col long_col legend_entry : string)
  : M objects unit :=
  let required_columns :=
    [price_col; quality_col; bedrooms_col; lat_col; long_col] in
  ensure_columns required_columns ;;;
  price <- df_get price_col ;;
  price_int <- lift (astype_int price) ;;
  quality <- df_get quality_col ;;
  bedrooms <- df_get bedrooms_col ;;
  df_set "hover_text"
    (StrCol
       (str_add
          (str_add_lit
             (str_add
                (str_add_lit
                   (str_add_lit
                      (str_radd "Price: " (map str_of_int price_int))
                      "$")
                   "<br>Quality: ")
                (astype_str quality))
             "<br>Bedrooms: ")
          (astype_str bedrooms))) ;;;
  lat <- df_get lat_col ;;
  lon <- df_get long_col ;;
  price' <- df_get price_col ;;
  sizes <- lift (marker_sizes price') ;;
  marker <- lift (scattermapbox_marker sizes "blue") ;;
  text <- df_get "hover_text" ;;
  fig_add_trace
    (Scattermapbox
       (mkScatter (Data lat) (Data lon) "markers" (Some marker)
          None (Some text) (Some "text") legend_entry true)).

Definition add_choropleth_map
    (counties : json) (zipcode_col house_quality_col legend_entry : string)
  : M objects unit :=
  let required_columns := [zipcode_col; house_quality_col] in
  ensure_columns required_columns ;;;
  zipcode <- df_get zipcode_col ;;
  quality <- df_get house_quality_col ;;
  df_set "hover_text"
    (StrCol
       (str_add
          (str_add_lit (str_radd "Zipcode: " (astype_str zipcode))
                       "<br>Quality: ")
          (astype_str quality))) ;;;
  locations <- df_get zipcode_col ;;
  z <- df_get house_quality_col ;;
  text <- df_get "hover_text" ;;
  fig_add_trace
    (Choroplethmapbox
       (mkChoropleth counties locations z "Hot" false (4 # 10)
          "properties.ZCTA5CE10" legend_entry text "text" true)).

Definition add_schools_layer
    (lat_col lon_col name_col desc_col legend_entry : string)
  : M objects unit :=
  name <- df_get name_col ;;
  desc <- df_get desc_col ;;
  desc_str <- lift (str_accessor desc) ;;
  df_set "hover_text"
    (StrCol
       (str_add
          (str_add_lit (astype_str name) "<br>")
          (str_strip (str_replace_ci "School-" desc_str)))) ;;;
  lat <- df_get lat_col ;;
  lon <- df_get lon_col ;;
  text <- df_get "hover_text" ;;
  fig_add_trace
    (Scattermapbox
       (mkScatter (Data lat) (Data lon) "markers"
          (Some (mkMarker (SizeNumber 4) "darkred" (Some (8 # 10))
                   (Some "circle")))
          None (Some text) (Some "text") legend_entry true)).

End Builders.

(** The dict that [add_park_outlines_layer] passes as the one element of
    [mapbox_layers]. *)
Definition park_layer_dict (parks : json) : LayerDict :=
  mkLayerDict (Some "geojson") (Some parks) (Some "line") (Some "green")
              (Some (15 # 10)).

(** The trace that only carries the legend entry of the parks. *)
Definition park_legend_trace (legend_entry : string) : Trace :=
  Scattermapbox
    (mkScatter NoneData NoneData "lines" None
       (Some (mkLine 3 "green")) None None legend_entry true).

Definition add_park_outlines_layer (parks : json) (legend_entry : string)
                                   (fig : Figure) : Figure :=
  update_layout_mapbox_layers [park_layer_dict parks]
    (add_trace (park_legend_trace legend_entry) fig).

(** [update_map_layout(fig, lat, lon, mapbox_style)]: every property
    named in the call is assigned; [mapbox.layers] is not named. *)
Definition update_map_layout (lat lon : Q) (style : string) (fig : Figure)
  : Figure :=
  mkFigure (data fig)
    (mkLayout (Some style) (Some 9%Q) (Some lat) (Some lon)
       (mapbox_layers (layout fig))
       (mkMargin (Some 0%Q) (Some 0%Q) (Some 0%Q) (Some 0%Q))
       (mkLegend (Some "Legend") (Some "v") (Some "top") (Some (99 # 100))
                 (Some "left") (Some (1 # 100)))
       (Some 1000%Q) (Some 1000%Q)).

(** *** The orchestrator

    The DataFrames live in a store of objects, addressed by reference, so
    that one DataFrame passed under two parameters is one object.  The
    field [figure] is the local [fig]; [shown] records [fig.show()] and
    [fig.write_image(path)] with the figure as it was at that moment;
    [calls] records, in their order, the functions of this module that
    the orchestrator called, each with the figure it was handed. *)
Inductive call : Type :=
| Called (function : string) (fig : Figure).

Record World : Type := mkWorld {
  frames : nat -> DataFrame;
  figure : Figure;
  shown : list event;
  calls : list call
}.

Definition store_frame (r : nat) (df : DataFrame) (fs : nat -> DataFrame)
  : nat -> DataFrame :=
  fun r' => if Nat.eqb r' r then df else fs r'.

Definition log_call (function : string) (w : World) : list call :=
  calls w ++ [Called function (figure w)].

(** [fig = go.Figure()] *)
Definition fresh_figure : M World unit :=
  modify (fun w => mkWorld (frames w) new_figure (shown w) (calls w)).

(** The call of the builder [function] on the DataFrame at reference [r]
    and on [fig]. *)
Definition with_frame (function : string) (r : nat) (m : M objects unit)
  : M World unit :=
  fun w =>
    match m (frames w r, figure w) with
    | (res, (df', fig')) =>
        (res, mkWorld (store_frame r df' (frames w)) fig' (shown w)
                      (log_call function w))
    end.

(** The call of [function], which works on [fig] alone. *)
Definition on_fig (function : string) (f : Figure -> Figure) : M World unit :=
  modify (fun w => mkWorld (frames w) (f (figure w)) (shown w)
                           (log_call function w)).

Section Orchestrator.
Context `{Runtime} `{Renderer}.

(** [fig.show()] *)
Definition fig_show : M World unit :=
  fun w =>
    match show_error (figure w) with
    | Some e => (inl e, w)
    | None =>
        (inr tt, mkWorld (frames w) (figure w)
                         (shown w ++ [Show (figure w)]) (calls w))
    end.

(** [fig.write_image(path)] *)
Definition fig_write_image (path : string) : M World unit :=
  fun w =>
    match write_image_error path (figure w) with
    | Some e => (inl e, w)
    | None =>
        (inr tt, mkWorld (frames w) (figure w)
                         (shown w ++ [WriteImage path (figure w)]) (calls w))
    end.

Definition vizualize_findings
    (df_houses df_schools df_county : option nat)
    (parks county : option json) (save_png : option string)
    (lat lon : Q) (mapbox_style : string) : M World unit :=
  fresh_figure ;;;
  match df_county, county with
  | Some d, Some c =>
      with_frame "add_choropleth_map" d
        (add_choropleth_map c "zipcode" "house_quality" choropleth_legend)
  | _, _ => ret tt
  end ;;;
  match parks with
  | Some p =>
      on_fig "add_park_outlines_layer" (add_park_outlines_layer p parks_legend)
  | None => ret tt
  end ;;;
  match df_schools with
  | Some d =>
      with_frame "add_schools_layer" d
        (add_schools_layer "LAT_CEN" "LONG_CEN" "ABB_NAME" "FEATUREDES"
                           schools_legend)
  | None => ret tt
  end ;;;
  match df_houses with
  | Some d =>
      with_frame "plotting_houses" d
        (plotting_houses "price" "house_quality" "bedrooms" "lat" "long"
                         houses_legend)
  | None => ret tt
  end ;;;
  on_fig "update_map_layout" (update_map_layout lat lon mapbox_style) ;;;
  fig_show ;;;
  match save_png with
  | Some path => fig_write_image path
  | None => ret tt
  end.

End Orchestrator.

End GeoPlot.

Import GeoPlot.

(** ** Vocabulary of the statements *)

Module Spec.

Definition is_numeric (c : column) : bool :=
  match c with StrCol _ => false | _ => true end.

(** A price column from which marker sizes can be computed: it has at
    least two distinct values, so that [max - min] is not zero, and its
    values are of magnitude at most [2^52], far from where [int64] wraps
    around and float64 overflows. *)
Definition price_range_ok (c : column) : bool :=
  match numeric c with
  | inr xs =>
      match series_min xs, series_max xs with
      | Finite mn, Finite mx =>
          negb (Qle_bool mx mn)
          && Qle_bool (- inject_Z (2 ^ 52)) mn
          && Qle_bool mx (inject_Z (2 ^ 52))
      | _, _ => false
      end
  | inl _ => false
  end.

(** A dataset that [plotting_houses] accepts: the five columns are
    there; the price is a numeric column with at least two distinct
    values, of magnitude at most [2^52] (a constant or one-row column
    gives [nan] sizes, which plotly rejects); and the price is not read
    from the column ['hover_text'], which the builder overwrites with
    text before it normalises the price. *)
Definition valid_houses (df : DataFrame)
    (price_col quality_col bedrooms_col lat_col long_col : string) : bool :=
  negb (String.eqb price_col "hover_text")
  && match df !! price_col with
     | Some c => is_numeric c && price_range_ok c
     | None => false
     end
  && has_column df quality_col && has_column df bedrooms_col
  && has_column df lat_col && has_column df long_col.


(** [r] is the number [(v - mn) / (mx - mn)]. *)
Definition normalized (mn mx v : Q) (r : fnum) : Prop :=
  exists q, r = Finite q /\ (q == (v - mn) / (mx - mn))%Q.

(** A dataset that [add_choropleth_map] accepts. *)
Definition valid_region (df : DataFrame) (zipcode_col quality_col : string)
  : bool :=
  has_column df zipcode_col && has_column df quality_col.

(** A dataset that [add_schools_layer] accepts: the four columns are
    there and the description is a column of strings. *)
Definition valid_schools (df : DataFrame)
    (lat_col lon_col name_col desc_col : string) : bool :=
  has_column df name_col
  && match df !! desc_col with Some (StrCol _) => true | _ => false end
  && has_column df lat_col && has_column df lon_col.

(** The marker sizes of a trace, when they are an array. *)
Definition marker_sizes_of (t : Trace) : option (list fnum) :=
  match t with
  | Scattermapbox p =>
      match sc_marker p with
      | Some m => match m_size m with
                  | SizeArray xs => Some xs
                  | SizeNumber _ => None
                  end
      | None => None
      end
  | Choroplethmapbox _ => None
  end.

(** The marker sizes of the trace added last. *)
Definition last_marker_sizes (fig : Figure) : option (list fnum) :=
  match rev (data fig) with
  | t :: _ => marker_sizes_of t
  | [] => None
  end.

(** The per-row text of a trace. *)
Definition trace_text (t : Trace) : option column :=
  match t with
  | Scattermapbox p => sc_text p
  | Choroplethmapbox p => Some (ch_text p)
  end.

(** Two arrays of float results hold the same numbers. *)
Fixpoint fnums_eqb (xs ys : list fnum) : bool :=
  match xs, ys with
  | [], [] => true
  | x :: xs', y :: ys' => fnum_eqb x y && fnums_eqb xs' ys'
  | _, _ => false
  end.

(** The overlay entry as the park builder writes it. *)
Definition is_park_overlay (parks : json) (l : MapboxLayer) : Prop :=
  ly_sourcetype l = Some "geojson" /\ ly_source l = Some parks
  /\ ly_type l = Some "line" /\ ly_color l = Some "green"
  /\ ly_line_width l = Some (15 # 10).

(** How a layer shows in the trace list: its kind and its legend name. *)
Definition layer_kind (t : Trace) : bool * string :=
  (is_choropleth t, trace_name t).

(** The figure of the orchestrator before any dataset layer: empty, or
    with the park outlines. *)
Definition layers_figure (parks : option json) : Figure :=
  match parks with
  | Some p => add_park_outlines_layer p parks_legend new_figure
  | None => new_figure
  end.

(** Two stores agree on every column except ['hover_text']. *)
Definition same_inputs (fs fs' : nat -> DataFrame) : Prop :=
  forall r col, col <> "hover_text" -> fs' r !! col = fs r !! col.

(** [f'] has the traces of [f], in their order, followed by
    Scattermapbox traces only. *)
Definition extends_by_scatter (f f' : Figure) : Prop :=
  exists ts, data f' = data f ++ ts
             /\ Forall (fun t => is_choropleth t = false) ts.

(** A computation that only ever appends Scattermapbox traces to the
    figure of its state, whether it returns or raises. *)
Definition adds_only_scatter {S A} (fig_of : S -> Figure) (m : M S A) : Prop :=
  forall s, extends_by_scatter (fig_of s) (fig_of (snd (m s))).

(** The number of rows of a column. *)
Definition col_len (c : column) : nat :=
  match c with
  | IntCol xs => length xs
  | FloatCol xs => length xs
  | StrCol xs => length xs
  end.

(** A step of a builder that leaves the figure alone. *)
Definition keeps_figure {A} (m : M objects A) : Prop :=
  forall s, snd (snd (m s)) = snd s.

(** A builder that touches the figure only when it returns, and then by
    appending one trace. *)
Definition figure_atomic (m : M objects unit) : Prop :=
  forall s, match m s with
            | (inl _, s') => snd s' = snd s
            | (inr _, s') => exists t, snd s' = add_trace t (snd s)
            end.

(** [df'] has every column of [df] as it was, except ['hover_text']. *)
Definition same_columns (df df' : DataFrame) : Prop :=
  forall col, col <> "hover_text" -> df' !! col = df !! col.

(** A computation that writes no column of the dataset but
    ['hover_text'], whether it returns or raises. *)
Definition writes_only_hover {A} (m : M objects A) : Prop :=
  forall s, same_columns (fst s) (fst (snd (m s))).

(** The datasets that a request hands to a builder. *)
Definition used_refs (dh ds dc : option nat) (county : option json)
  : list nat :=
  match dc, county with Some d, Some _ => [d] | _, _ => [] end
  ++ match ds with Some d => [d] | None => [] end
  ++ match dh with Some d => [d] | None => [] end.

(** The store [fs'] differs from [fs] at most in the column ['hover_text']
    of the datasets referenced in [refs]. *)
Definition only_hover_of (refs : list nat) (fs fs' : nat -> DataFrame) : Prop :=
  same_inputs fs fs' /\ forall r, ~ In r refs -> fs' r = fs r.

(** A request keeps this relation between the store it finds and the
    store it leaves. *)
Definition store_step {A} (refs : list nat) (m : M World A) : Prop :=
  forall w, only_hover_of refs (frames w) (frames (snd (m w))).

(** A step of a request that shows and writes nothing. *)
Definition keeps_shown {A} (m : M World A) : Prop :=
  forall w, shown (snd (m w)) = shown w.

(** The size that [plotting_houses] gives a price [v] of a column with
    extremes [mn] and [mx]. *)
Definition size_of_price (mn mx v : Q) : Q := ((v - mn) / (mx - mn) + 1) * 10.

(** [r] is that size. *)
Definition sized (mn mx v : Q) (r : fnum) : Prop :=
  exists q, r = Finite q /\ (q == size_of_price mn mx v)%Q.

(** The text that [plotting_houses] writes, from the truncated prices and
    the quality and bedrooms columns. *)
Definition houses_hover `{Runtime} (prices : list Z) (quality bedrooms : column)
  : list string :=
  str_add
    (str_add_lit
       (str_add
          (str_add_lit
             (str_add_lit (str_radd "Price: " (map str_of_int prices)) "$")
             "<br>Quality: ")
          (astype_str quality))
       "<br>Bedrooms: ")
    (astype_str bedrooms).

(** What a request has displayed and exported when it is over.  If it
    returned: the final figure, and then the export.  If it raised:
    nothing, unless it is the export that raised, after the display. *)
Definition shows_then_exports `{Renderer} (save_png : option string)
    (m : M World unit) : Prop :=
  forall w, match m w with
            | (inl e, w') =>
                shown w' = shown w
                \/ exists path,
                     save_png = Some path
                     /\ write_image_error path (figure w') = Some e
                     /\ shown w' = shown w ++ [Show (figure w')]
            | (inr _, w') =>
                shown w'
                = shown w ++ Show (figure w')
                    :: match save_png with
                       | Some path => [WriteImage path (figure w')]
                       | None => []
                       end
            end.


(** A correlation whose hundredths are [n], without the leading zero:
    ["-.50"], [".07"], ["1.00"]. *)
Definition short_text (negative : bool) (n : Z) : string :=
  (if negative then "-" else "")
  +:+ (if (n =? 100)%Z then "1.00"
       else "." +:+ pretty (n / 10)%Z +:+ pretty (n mod 10)%Z).

Definition short_text_ok (negative : bool) (n : Z) : bool :=
  String.eqb (PyStr.replace "0." "." (PyStr.fixed2 negative n))
             (short_text negative n).

(** *** Sample data *)

Definition sample_stats : CustFunc.Stats :=
  {| CustFunc.series_corr := fun _ _ => Finite (-1);
     CustFunc.pearsonr := fun _ _ => inr (Finite (-1), Finite 0) |}.

Definition sample_empty_frame : EdaTables.Frame :=
  EdaTables.mkFrame 0 [("price", []); ("city", [])].

Definition sample_report_frame : EdaTables.Frame :=
  EdaTables.mkFrame 2
    [("price", [None; Some (EdaTables.CInt 1)]);
     ("city", [Some (EdaTables.CStr "x"); Some (EdaTables.CStr "y")])].

(** The sample columns are integers and strings: this runtime is not
    consulted on their text. *)
Definition sample_runtime : Runtime :=
  {| float_repr := fun _ => "";
     int_of_str := fun _ => None;
     size_error_text := fun _ => "Invalid element(s) received for the 'size' property" |}.

(** A renderer that displays and writes without an error, and one whose
    export fails. *)
Definition sample_renderer : Renderer :=
  {| show_error := fun _ => None; write_image_error := fun _ _ => None |}.

Definition failing_export : Renderer :=
  {| show_error := fun _ => None;
     write_image_error := fun _ _ => Some (ValueError "Invalid format") |}.

Definition three_houses : DataFrame :=
  <["price" := IntCol [100; 200; 300]%Z]>
  (<["house_quality" := IntCol [3; 4; 5]%Z]>
  (<["bedrooms" := IntCol [2; 3; 4]%Z]>
  (<["lat" := IntCol [47; 47; 47]%Z]>
  (<["long" := IntCol [-122; -122; -122]%Z]> ∅)))).

(** One house: the price column has one row. *)
Definition one_house : DataFrame :=
  <["price" := IntCol [450000]%Z]>
  (<["house_quality" := IntCol [3]%Z]>
  (<["bedrooms" := IntCol [2]%Z]>
  (<["lat" := IntCol [47]%Z]>
  (<["long" := IntCol [-122]%Z]> ∅)))).


Definition two_zipcodes : DataFrame :=
  <["zipcode" := StrCol ["98001"; "98002"]]>
  (<["house_quality" := IntCol [3; 4]%Z]> ∅).

Definition two_schools : DataFrame :=
  <["ABB_NAME" := StrCol ["Lake ES"; "Hill HS"]]>
  (<["FEATUREDES" := StrCol ["School-Elementary"; "School-High"]]>
  (<["LAT_CEN" := IntCol [47; 47]%Z]>
  (<["LONG_CEN" := IntCol [-122; -122]%Z]> ∅))).

(** A school dataset without the column that the call below names as
    its latitude. *)
Definition schools_without_latitude : DataFrame :=
  <["ABB_NAME" := StrCol ["Lake ES"; "Hill HS"]]>
  (<["FEATUREDES" := StrCol ["School-Elementary"; "School-High"]]>
  (<["LONG_CEN" := IntCol [-122; -122]%Z]> ∅)).

Definition sample_parks : json := JObj [("type", JStr "FeatureCollection")].
Definition sample_counties : json := JObj [("type", JStr "FeatureCollection")].

(** A figure that already carries two overlays. *)
Definition two_overlays : Figure :=
  update_layout_mapbox_layers
    [mkLayerDict (Some "geojson") (Some (JStr "rivers")) (Some "line")
                 (Some "blue") None;
     mkLayerDict (Some "geojson") (Some (JStr "roads")) (Some "line")
                 (Some "grey") None]
    new_figure.

(** A store whose references 0, 1 and 2 hold the three sample datasets. *)
Definition sample_world : World :=
  mkWorld (fun r => match r with
                    | 0 => three_houses
                    | 1 => two_schools
                    | _ => two_zipcodes
                    end)
          new_figure [] [].

End Spec.

Import Spec.

(** * Properties *)

(** ** The extremes of a series *)

Section Extremes.
Local Open Scope Q_scope.

Lemma Qmin_cases (x y : Q) : Qmin x y = x \/ Qmin x y = y.
Proof. unfold Qmin, GenericMinMax.gmin. destruct (x ?= y); auto. Qed.

Lemma Qmax_cases (x y : Q) : Qmax x y = x \/ Qmax x y = y.
Proof. unfold Qmax, GenericMinMax.gmax. destruct (x ?= y); auto. Qed.

Lemma fold_min_in (rest : list Q) (x : Q) :
  In (fold_left Qmin rest x) (x :: rest).
Proof.
  revert x. induction rest as [|y rest IH]; intros x; simpl.
  - now left.
  - destruct (IH (Qmin x y)) as [E | I]; [|auto].
    rewrite <- E. destruct (Qmin_cases x y) as [-> | ->]; auto.
Qed.

Lemma fold_max_in (rest : list Q) (x : Q) :
  In (fold_left Qmax rest x) (x :: rest).
Proof.
  revert x. induction rest as [|y rest IH]; intros x; simpl.
  - now left.
  - destruct (IH (Qmax x y)) as [E | I]; [|auto].
    rewrite <- E. destruct (Qmax_cases x y) as [-> | ->]; auto.
Qed.

Lemma fold_min_le (rest : list Q) (x v : Q) :
  In v (x :: rest) -> fold_left Qmin rest x <= v.
Proof.
  revert x v. induction rest as [|y rest IH]; intros x v Hin; simpl in *.
  - destruct Hin as [<- | []]. apply Qle_refl.
  - destruct Hin as [<- | [<- | Hin]].
    + eapply Qle_trans; [apply IH; now left | apply Q.le_min_l].
    + eapply Qle_trans; [apply IH; now left | apply Q.le_min_r].
    + apply IH. now right.
Qed.

Lemma fold_max_ge (rest : list Q) (x v : Q) :
  In v (x :: rest) -> v <= fold_left Qmax rest x.
Proof.
  revert x v. induction rest as [|y rest IH]; intros x v Hin; simpl in *.
  - destruct Hin as [<- | []]. apply Qle_refl.
  - destruct Hin as [<- | [<- | Hin]].
    + eapply Qle_trans; [apply Q.le_max_l | apply IH; now left].
    + eapply Qle_trans; [apply Q.le_max_r | apply IH; now left].
    + apply IH. now right.
Qed.

(** [series.min()] is an element of the series and a lower bound. *)
Lemma series_min_spec (xs : list Q) (mn : Q) :
  series_min xs = Finite mn ->
  In mn xs /\ forall v, In v xs -> mn <= v.
Proof.
  destruct xs as [|x rest]; simpl; [discriminate|].
  intros E. injection E as <-. split.
  - apply fold_min_in.
  - intros v Hv. now apply fold_min_le.
Qed.

Lemma series_max_spec (xs : list Q) (mx : Q) :
  series_max xs = Finite mx ->
  In mx xs /\ forall v, In v xs -> v <= mx.
Proof.
  destruct xs as [|x rest]; simpl; [discriminate|].
  intros E. injection E as <-. split.
  - apply fold_max_in.
  - intros v Hv. now apply fold_max_ge.
Qed.

Lemma Qis_zero_spec (q : Q) : Qis_zero q = true <-> q == 0.
Proof. unfold Qis_zero, Qeq. simpl. rewrite Z.eqb_eq. lia. Qed.

Lemma Qis_zero_false (q : Q) : Qis_zero q = false <-> ~ q == 0.
Proof.
  rewrite <- Qis_zero_spec. destruct (Qis_zero q); split; congruence.
Qed.

Lemma normalize_formula (xs : list Q) (mn mx : Q) :
  series_min xs = Finite mn -> series_max xs = Finite mx -> mn < mx ->
  CustFunc.normalize_column xs
  = map (fun v => Finite ((v - mn) / (mx - mn))) xs.
Proof.
  intros Emn Emx Hlt. unfold CustFunc.normalize_column.
  rewrite Emn, Emx. simpl.
  assert (Hz : Qis_zero (mx - mn) = false) by (apply Qis_zero_false; lra).
  now rewrite Hz.
Qed.

Lemma normalize_constant (xs : list Q) (mn mx : Q) :
  series_min xs = Finite mn -> series_max xs = Finite mx -> mx == mn ->
  CustFunc.normalize_column xs = map (fun _ => NaN) xs.
Proof.
  intros Emn Emx Heq. unfold CustFunc.normalize_column.
  rewrite Emn, Emx. simpl.
  assert (Hz : Qis_zero (mx - mn) = true) by (apply Qis_zero_spec; lra).
  rewrite Hz. apply map_ext_in. intros v Hv.
  destruct (series_min_spec _ _ Emn) as [_ Hlo].
  destruct (series_max_spec _ _ Emx) as [_ Hhi].
  specialize (Hlo v Hv). specialize (Hhi v Hv).
  assert (Hv0 : Qis_zero (v - mn) = true) by (apply Qis_zero_spec; lra).
  now rewrite Hv0.
Qed.

Lemma unit_interval (v mn mx : Q) :
  mn < mx ->
  (v == mn -> (v - mn) / (mx - mn) == 0)
  /\ (v == mx -> (v - mn) / (mx - mn) == 1)
  /\ (mn < v -> v < mx -> 0 < (v - mn) / (mx - mn) < 1).
Proof.
  intros Hlt. assert (Hd : 0 < mx - mn) by lra.
  repeat split.
  - intros E. rewrite E. field. lra.
  - intros E. rewrite E. field. lra.
  - apply Qlt_shift_div_l; lra.
  - apply Qlt_shift_div_r; lra.
Qed.

(** *** [int64] series *)

Lemma Qmin_inject (a b : Z) :
  Qmin (inject_Z a) (inject_Z b) = inject_Z (Z.min a b).
Proof.
  unfold Qmin, GenericMinMax.gmin, Qcompare, Z.min. simpl.
  rewrite !Z.mul_1_r. destruct (a ?= b)%Z; reflexivity.
Qed.

Lemma Qmax_inject (a b : Z) :
  Qmax (inject_Z a) (inject_Z b) = inject_Z (Z.max a b).
Proof.
  unfold Qmax, GenericMinMax.gmax, Qcompare, Z.max. simpl.
  rewrite !Z.mul_1_r. destruct (a ?= b)%Z; reflexivity.
Qed.

Lemma fold_min_inject (rest : list Z) (x : Z) :
  fold_left Qmin (map inject_Z rest) (inject_Z x)
  = inject_Z (fold_left Z.min rest x).
Proof.
  revert x. induction rest as [|y rest IH]; intros x; simpl; [reflexivity|].
  rewrite Qmin_inject. apply IH.
Qed.

Lemma fold_max_inject (rest : list Z) (x : Z) :
  fold_left Qmax (map inject_Z rest) (inject_Z x)
  = inject_Z (fold_left Z.max rest x).
Proof.
  revert x. induction rest as [|y rest IH]; intros x; simpl; [reflexivity|].
  rewrite Qmax_inject. apply IH.
Qed.

(** The extremes of an [int64] series are the extremes of its values. *)
Lemma series_min_inject (zs : list Z) :
  series_min (map inject_Z zs)
  = match int_series_min zs with Some m => Finite (inject_Z m) | None => NaN end.
Proof. destruct zs; simpl; [reflexivity|]. now rewrite fold_min_inject. Qed.

Lemma series_max_inject (zs : list Z) :
  series_max (map inject_Z zs)
  = match int_series_max zs with Some m => Finite (inject_Z m) | None => NaN end.
Proof. destruct zs; simpl; [reflexivity|]. now rewrite fold_max_inject. Qed.

Lemma in_map_inject (z : Z) (zs : list Z) :
  In (inject_Z z) (map inject_Z zs) -> In z zs.
Proof.
  intros Hin. apply in_map_iff in Hin. destruct Hin as (z' & E & Hz').
  injection E as ->. exact Hz'.
Qed.

Lemma int_series_min_spec (zs : list Z) (m : Z) :
  int_series_min zs = Some m ->
  In m zs /\ forall v, In v zs -> (m <= v)%Z.
Proof.
  intros E. pose proof (series_min_inject zs) as Hq. rewrite E in Hq.
  destruct (series_min_spec _ _ Hq) as [Hin Hlo]. split.
  - now apply in_map_inject.
  - intros v Hv. rewrite Zle_Qle. apply Hlo. now apply in_map.
Qed.

Lemma int_series_max_spec (zs : list Z) (m : Z) :
  int_series_max zs = Some m ->
  In m zs /\ forall v, In v zs -> (v <= m)%Z.
Proof.
  intros E. pose proof (series_max_inject zs) as Hq. rewrite E in Hq.
  destruct (series_max_spec _ _ Hq) as [Hin Hhi]. split.
  - now apply in_map_inject.
  - intros v Hv. rewrite Zle_Qle. apply Hhi. now apply in_map.
Qed.

(** A result inside the [int64] range does not wrap. *)
Lemma int64_wrap_small (z : Z) :
  (- 2 ^ 63 <= z < 2 ^ 63)%Z -> int64_wrap z = z.
Proof.
  intros Hz. unfold int64_wrap.
  change (2 ^ 64)%Z with (2 * 2 ^ 63)%Z.
  rewrite Z.mod_small by lia. lia.
Qed.

Lemma normalize_int64_formula (zs : list Z) (mn mx : Z) :
  int_series_min zs = Some mn -> int_series_max zs = Some mx ->
  (mn < mx)%Z -> (- 2 ^ 62 <= mn)%Z -> (mx < 2 ^ 62)%Z ->
  CustFunc.normalize_column_int64 zs
  = map (fun v => Finite (inject_Z (v - mn) / inject_Z (mx - mn))) zs.
Proof.
  intros Emn Emx Hlt Hlo Hhi. unfold CustFunc.normalize_column_int64.
  rewrite Emn, Emx.
  destruct (int_series_min_spec _ _ Emn) as [_ Hmin].
  destruct (int_series_max_spec _ _ Emx) as [_ Hmax].
  assert (P : (2 ^ 63 = 2 * 2 ^ 62)%Z) by reflexivity.
  assert (Hr : int64_sub mx mn = (mx - mn)%Z)
    by (apply int64_wrap_small; lia).
  rewrite Hr. apply map_ext_in. intros v Hv.
  specialize (Hmin v Hv). specialize (Hmax v Hv).
  assert (Hd : int64_sub v mn = (v - mn)%Z)
    by (apply int64_wrap_small; lia).
  rewrite Hd. unfold float_of_int64, fdiv.
  assert (Hz : Qis_zero (inject_Z (mx - mn)) = false)
    by (unfold Qis_zero; simpl; apply Z.eqb_neq; lia).
  now rewrite Hz.
Qed.

Lemma normalize_int64_constant (zs : list Z) (m : Z) :
  int_series_min zs = Some m -> int_series_max zs = Some m ->
  CustFunc.normalize_column_int64 zs = map (fun _ => NaN) zs.
Proof.
  intros Emn Emx. unfold CustFunc.normalize_column_int64.
  rewrite Emn, Emx.
  destruct (int_series_min_spec _ _ Emn) as [_ Hmin].
  destruct (int_series_max_spec _ _ Emx) as [_ Hmax].
  apply map_ext_in. intros v Hv.
  specialize (Hmin v Hv). specialize (Hmax v Hv).
  assert (v = m) by lia. subst v.
  unfold int64_sub. rewrite Z.sub_diag. reflexivity.
Qed.

(** The closure of [plotting_houses] is the function of [cust_func.py],
    for each dtype. *)
Lemma normalize_column_float (xs : list Q) :
  GeoPlot.normalize_column (FloatCol xs)
  = inr (CustFunc.normalize_column xs).
Proof. reflexivity. Qed.

Lemma normalize_column_int (zs : list Z) :
  GeoPlot.normalize_column (IntCol zs)
  = inr (CustFunc.normalize_column_int64 zs).
Proof.
  unfold GeoPlot.normalize_column, CustFunc.normalize_column_int64.
  destruct (int_series_min zs), (int_series_max zs); reflexivity.
Qed.

Lemma Forall2_map_both {A B C} (P : B -> C -> Prop) (f : A -> B) (g : A -> C)
    (l : list A) :
  (forall x, In x l -> P (f x) (g x)) -> Forall2 P (map f l) (map g l).
Proof.
  induction l as [|x l IH]; intros Hl; simpl; constructor.
  - apply Hl. now left.
  - apply IH. intros y Hy. apply Hl. now right.
Qed.

Lemma Forall2_transfer {A B} (P : A -> B -> Prop) (R : B -> Prop)
    (xs : list A) (rs : list B) :
  Forall2 P xs rs -> (forall v r, In v xs -> P v r -> R r) ->
  forall r, In r rs -> R r.
Proof.
  induction 1 as [|v r xs rs Hvr _ IH]; intros Hall r0 Hin; [destruct Hin|].
  destruct Hin as [<- | Hin].
  - apply (Hall v); [now left | exact Hvr].
  - apply IH; [|exact Hin]. intros v' r' Hv'. apply Hall. now right.
Qed.


(** Where nothing wraps, both copies of the encoder map every value [v]
    of a column with extremes [mn < mx] to [(v - mn) / (mx - mn)]. *)
Lemma normalize_column_exact (c : column) (xs : list Q) (mn mx : Q) :
  numeric c = inr xs ->
  series_min xs = Finite mn -> series_max xs = Finite mx -> mn < mx ->
  - inject_Z (2 ^ 52) <= mn -> mx <= inject_Z (2 ^ 52) ->
  exists rs,
    GeoPlot.normalize_column c = inr rs
    /\ (forall ys, c = FloatCol ys -> CustFunc.normalize_column ys = rs)
    /\ (forall zs, c = IntCol zs -> CustFunc.normalize_column_int64 zs = rs)
    /\ Forall2 (normalized mn mx) xs rs.
Proof.
  intros Ec Emn Emx Hlt Hlo Hhi.
  destruct c as [zs | ys | ss]; simpl in Ec; [| |discriminate].
  - injection Ec as <-.
    rewrite series_min_inject in Emn. rewrite series_max_inject in Emx.
    destruct (int_series_min zs) as [m|] eqn:Em; [|discriminate].
    destruct (int_series_max zs) as [M|] eqn:EM; [|discriminate].
    injection Emn as <-. injection Emx as <-.
    change (- inject_Z (2 ^ 52)) with (inject_Z (- 2 ^ 52)) in Hlo.
    rewrite <- Zle_Qle in Hlo, Hhi. rewrite <- Zlt_Qlt in Hlt.
    assert (P : (2 ^ 62 = 1024 * 2 ^ 52)%Z) by reflexivity.
    assert (E : CustFunc.normalize_column_int64 zs
                = map (fun v => Finite (inject_Z (v - m) / inject_Z (M - m)))
                      zs)
      by (apply normalize_int64_formula; try assumption; lia).
    exists (CustFunc.normalize_column_int64 zs).
    split; [apply normalize_column_int|].
    split; [discriminate|].
    split; [intros zs' [= <-]; reflexivity|].
    rewrite E. apply Forall2_map_both. intros v _.
    eexists. split; [reflexivity|].
    assert (E1 : inject_Z (v - m) == inject_Z v - inject_Z m)
      by (unfold Qeq; simpl; lia).
    assert (E2 : inject_Z (M - m) == inject_Z M - inject_Z m)
      by (unfold Qeq; simpl; lia).
    now rewrite E1, E2.
  - injection Ec as <-.
    exists (CustFunc.normalize_column ys).
    split; [apply normalize_column_float|].
    split; [intros ys' [= <-]; reflexivity|].
    split; [discriminate|].
    rewrite (normalize_formula ys mn mx Emn Emx Hlt).
    rewrite <- (map_id ys) at 1. apply Forall2_map_both. intros v _.
    eexists. split; reflexivity.
Qed.





(** C6: on a non-empty constant column ([max == min]) the divisor
    [max - min] is zero and nothing guards it: the encoder raises
    nothing and returns, for every row, [NaN] (not a number) instead of
    a finite constant; the marker sizes derived from it are [NaN]
    too. *)
Theorem normalize_column_constant_is_nan (xs : list Q) (mn mx : Q) :
  series_min xs = Finite mn -> series_max xs = Finite mx -> mx == mn ->
  fsub (series_max xs) (series_min xs) = Finite (mx - mn)
  /\ mx - mn == 0
  /\ CustFunc.normalize_column xs = map (fun _ => NaN) xs
  /\ (forall c, numeric c = inr xs ->
       GeoPlot.normalize_column c = inr (map (fun _ => NaN) xs)
       /\ marker_sizes c = inr (map (fun _ => NaN) xs))
  /\ length (CustFunc.normalize_column xs) = length xs
  /\ (0 < length xs)%nat
  /\ Forall (fun r => is_nan r = true) (CustFunc.normalize_column xs).
Proof.
  intros Emn Emx Heq.
  pose proof (normalize_constant xs mn mx Emn Emx Heq) as Enan.
  split; [now rewrite Emn, Emx|].
  split; [lra|]. split; [exact Enan|].
  split.
  { intros c Ec.
    assert (En : GeoPlot.normalize_column c = inr (map (fun _ => NaN) xs)).
    { destruct c as [zs | ys | ss]; simpl in Ec; [| |discriminate].
      - injection Ec as Exs. rewrite <- Exs in *.
        rewrite series_min_inject in Emn. rewrite series_max_inject in Emx.
        destruct (int_series_min zs) as [m|] eqn:Em; [|discriminate].
        destruct (int_series_max zs) as [M|] eqn:EM; [|discriminate].
        injection Emn as Emn. injection Emx as Emx.
        assert (M = m).
        { rewrite <- Emn, <- Emx in Heq. unfold Qeq in Heq. simpl in Heq.
          lia. }
        subst M. rewrite normalize_column_int, map_map.
        now rewrite (normalize_int64_constant zs m Em EM).
      - injection Ec as Exs. rewrite Exs.
        now rewrite normalize_column_float, Enan. }
    split; [exact En|]. unfold marker_sizes. rewrite En.
    now rewrite map_map. }
  split; [unfold CustFunc.normalize_column; apply length_map|].
  split; [destruct xs; [discriminate | simpl; lia]|].
  rewrite Enan. apply List.Forall_forall. intros r Hr.
  apply in_map_iff in Hr. destruct Hr as (v & <- & _). reflexivity.
Qed.

Lemma normalize_column_constant_is_nan_witness :
  CustFunc.normalize_column [5; 5; 5] = [NaN; NaN; NaN].
Proof.
  apply (normalize_column_constant_is_nan [5; 5; 5] 5 5);
    [reflexivity | reflexivity | reflexivity].
Defined.

End Extremes.
(** ** The layer builders *)

Lemma has_column_true (df : DataFrame) (col : string) :
  has_column df col = true -> exists c, df !! col = Some c.
Proof. unfold has_column. destruct (df !! col); [eauto | discriminate]. Qed.

Lemma has_column_false (df : DataFrame) (col : string) :
  has_column df col = false -> df !! col = None.
Proof. unfold has_column. destruct (df !! col); [discriminate | auto]. Qed.

(** A column that was there is still readable once ['hover_text'] has
    been written. *)
Lemma lookup_after_hover (df : DataFrame) (c : column) (col : string) :
  has_column df col = true ->
  exists v, <["hover_text" := c]> df !! col = Some v.
Proof.
  intros Hc. destruct (has_column_true _ _ Hc) as [v Ev].
  destruct (decide ("hover_text" = col)) as [<- | Hne].
  - rewrite lookup_insert_eq. eauto.
  - rewrite lookup_insert_ne by auto. eauto.
Qed.

Lemma bind_ok {S A B} (m : M S A) (k : A -> M S B) (s s' : S) (a : A) :
  m s = (inr a, s') -> bind m k s = k a s'.
Proof. intros E. unfold bind. now rewrite E. Qed.

Lemma bind_raise {S A B} (m : M S A) (k : A -> M S B) (s s' : S) (e : exn) :
  m s = (inl e, s') -> bind m k s = (inl e, s').
Proof. intros E. unfold bind. now rewrite E. Qed.

Ltac run_step :=
  unfold bind, df_get, df_set, df_has, fig_add_trace, modify, getitem,
         setitem, lift, ret, raise; simpl.

(** *** Validation *)

Lemma ensure_columns_present (req : list string) (df : DataFrame) (fig : Figure) :
  (forall c, In c req -> has_column df c = true) ->
  ensure_columns req (df, fig) = (inr tt, (df, fig)).
Proof.
  induction req as [|c req IH]; intros Hall; [reflexivity|].
  unfold ensure_columns in *. simpl. unfold bind at 1. unfold bind at 1.
  unfold df_has at 1. simpl.
  rewrite (Hall c (or_introl eq_refl)). simpl.
  apply IH. intros c' Hc'. apply Hall. now right.
Qed.

(** When a required column is absent, the loop raises on the first absent
    one and touches neither object. *)
Lemma ensure_columns_missing (req : list string) (df : DataFrame) (fig : Figure) :
  (exists c, In c req /\ has_column df c = false) ->
  exists pre c post,
    req = pre ++ c :: post
    /\ (forall c', In c' pre -> has_column df c' = true)
    /\ has_column df c = false
    /\ ensure_columns req (df, fig)
       = (inl (ValueError ("Missing required column: " +:+ c)), (df, fig)).
Proof.
  induction req as [|c req IH]; intros (c0 & Hin & Hmiss); [destruct Hin|].
  destruct (has_column df c) eqn:Hc.
  - destruct IH as (pre & c1 & post & -> & Hpre & Hc1 & Hrun).
    { exists c0. split; [|exact Hmiss].
      destruct Hin as [-> | Hin]; [congruence | exact Hin]. }
    exists (c :: pre), c1, post.
    split; [reflexivity|]. split; [|split; [exact Hc1|]].
    + intros c' [<- | Hc']; auto.
    + unfold ensure_columns in *. simpl. unfold bind at 1. unfold bind at 1.
      unfold df_has at 1. simpl. rewrite Hc. simpl. exact Hrun.
  - exists [], c, req.
    split; [reflexivity|]. split; [|split; [exact Hc|]].
    + intros c' [].
    + unfold ensure_columns. simpl. unfold bind at 1. unfold bind at 1.
      unfold df_has at 1. simpl. rewrite Hc. reflexivity.
Qed.

(** The loop writes nothing. *)
Lemma ensure_columns_state (req : list string) (s : objects) :
  snd (ensure_columns req s) = s.
Proof.
  unfold ensure_columns. induction req as [|c req IH]; [reflexivity|].
  simpl. unfold bind at 1. unfold bind at 1. unfold df_has at 1. simpl.
  destruct (negb (has_column (fst s) c)); [reflexivity | exact IH].
Qed.

Section Builders.
Context `{Runtime}.

(** [plotting_houses] without one of its columns: a [ValueError] that
    names an absent column, and both objects are as they were. *)
Lemma plotting_houses_missing (df : DataFrame) (fig : Figure)
    (p q b la lo legend c : string) :
  In c [p; q; b; la; lo] -> has_column df c = false ->
  exists c',
    In c' [p; q; b; la; lo] /\ has_column df c' = false
    /\ plotting_houses p q b la lo legend (df, fig)
       = (inl (ValueError ("Missing required column: " +:+ c')), (df, fig)).
Proof.
  intros Hin Hc.
  destruct (ensure_columns_missing [p; q; b; la; lo] df fig)
    as (pre & c' & post & Ereq & _ & Hc' & Erun); [eauto|].
  exists c'. split; [rewrite Ereq; apply in_elt|]. split; [exact Hc'|].
  unfold plotting_houses. cbv zeta. now rewrite (bind_raise _ _ _ _ _ Erun).
Qed.

(** The same for [add_choropleth_map]. *)
Lemma add_choropleth_map_missing (df : DataFrame) (fig : Figure)
    (counties : json) (zc hq legend c : string) :
  In c [zc; hq] -> has_column df c = false ->
  exists c',
    In c' [zc; hq] /\ has_column df c' = false
    /\ add_choropleth_map counties zc hq legend (df, fig)
       = (inl (ValueError ("Missing required column: " +:+ c')), (df, fig)).
Proof.
  intros Hin Hc.
  destruct (ensure_columns_missing [zc; hq] df fig)
    as (pre & c' & post & Ereq & _ & Hc' & Erun); [eauto|].
  exists c'. split; [rewrite Ereq; apply in_elt|]. split; [exact Hc'|].
  unfold add_choropleth_map. cbv zeta.
  now rewrite (bind_raise _ _ _ _ _ Erun).
Qed.

(** [add_schools_layer] has no such loop.  With the default column
    names, a dataset without its latitude column makes the column
    lookup raise [KeyError] after ['hover_text'] has been written to the
    dataset; the figure is as it was. *)
Lemma add_schools_layer_missing_latitude (df : DataFrame) (fig : Figure)
    (descs : list string) :
  has_column df "ABB_NAME" = true ->
  df !! "FEATUREDES" = Some (StrCol descs) ->
  has_column df "LAT_CEN" = false ->
  exists hover,
    add_schools_layer "LAT_CEN" "LONG_CEN" "ABB_NAME" "FEATUREDES"
                      schools_legend (df, fig)
    = (inl (KeyError "LAT_CEN"), (<["hover_text" := StrCol hover]> df, fig)).
Proof.
  intros Hn Ed Hl. destruct (has_column_true _ _ Hn) as [cn En].
  apply has_column_false in Hl.
  unfold add_schools_layer. run_step.
  rewrite En; simpl. rewrite Ed; simpl.
  rewrite lookup_insert_ne by discriminate. rewrite Hl. eauto.
Qed.

End Builders.

(** C1: for the school builder the claim does not hold.  The call names
    ['hover_text'] as its latitude column, the dataset has no such column,
    and yet nothing is raised and the figure has one more trace: the
    builder writes ['hover_text'] itself before it reads the latitude, and
    it has no check of its columns as [plotting_houses] and
    [add_choropleth_map] have. *)
Lemma add_schools_layer_unchecked_column :
  has_column schools_without_latitude "hover_text" = false
  /\ fst (@add_schools_layer sample_runtime "hover_text" "LONG_CEN" "ABB_NAME"
            "FEATUREDES" schools_legend (schools_without_latitude, new_figure))
     = inr tt
  /\ length (data new_figure) = 0
  /\ length (data (snd (snd (@add_schools_layer sample_runtime "hover_text"
                               "LONG_CEN" "ABB_NAME" "FEATUREDES"
                               schools_legend
                               (schools_without_latitude, new_figure)))))
     = 1.
Proof. vm_compute. repeat split. Qed.

(** *** The marker sizes of a price column *)

Section Sizes.
Local Open Scope Q_scope.

Lemma Qle_bool_false (x y : Q) : Qle_bool x y = false <-> y < x.
Proof. unfold Qle_bool, Qlt. rewrite Z.leb_gt. reflexivity. Qed.

Lemma price_range_ok_spec (c : column) :
  price_range_ok c = true ->
  exists xs mn mx,
    numeric c = inr xs
    /\ series_min xs = Finite mn /\ series_max xs = Finite mx
    /\ mn < mx /\ - inject_Z (2 ^ 52) <= mn /\ mx <= inject_Z (2 ^ 52).
Proof.
  unfold price_range_ok. destruct (numeric c) as [e | xs]; [discriminate|].
  destruct (series_min xs) as [mn | |] eqn:Emn; try discriminate.
  destruct (series_max xs) as [mx | |] eqn:Emx; try discriminate.
  intros Hv. apply andb_prop in Hv. destruct Hv as [Hv Hhi].
  apply andb_prop in Hv. destruct Hv as [Hlt Hlo].
  apply negb_true_iff, Qle_bool_false in Hlt.
  apply Qle_bool_iff in Hlo. apply Qle_bool_iff in Hhi.
  exists xs, mn, mx. repeat split; assumption.
Qed.

Lemma size_of_price_bounds (mn mx v : Q) :
  mn < mx -> mn <= v <= mx ->
  10 <= size_of_price mn mx v <= 20
  /\ (v == mn -> size_of_price mn mx v == 10)
  /\ (v == mx -> size_of_price mn mx v == 20).
Proof.
  intros Hlt [Hlo Hhi].
  destruct (unit_interval v mn mx Hlt) as (H0 & H1 & _).
  assert (Hd : 0 < mx - mn) by lra.
  assert (Hge : 0 <= (v - mn) / (mx - mn)) by (apply Qle_shift_div_l; lra).
  assert (Hle : (v - mn) / (mx - mn) <= 1) by (apply Qle_shift_div_r; lra).
  unfold size_of_price. split; [split; lra|].
  split; intros E; [rewrite (H0 E) | rewrite (H1 E)]; reflexivity.
Qed.


Lemma Forall2_map_r {A B C} (P : A -> B -> Prop) (P' : A -> C -> Prop)
    (g : B -> C) (xs : list A) (rs : list B) :
  Forall2 P xs rs -> (forall v r, P v r -> P' v (g r)) ->
  Forall2 P' xs (map g rs).
Proof. induction 1; intros Hg; simpl; constructor; auto. Qed.

(** Where nothing wraps, the marker size of every price [v] of a column
    with extremes [mn < mx] is [((v - mn) / (mx - mn) + 1) * 10]. *)
Lemma marker_sizes_exact (c : column) (xs : list Q) (mn mx : Q) :
  numeric c = inr xs ->
  series_min xs = Finite mn -> series_max xs = Finite mx -> mn < mx ->
  - inject_Z (2 ^ 52) <= mn -> mx <= inject_Z (2 ^ 52) ->
  exists sizes,
    marker_sizes c = inr sizes /\ Forall2 (sized mn mx) xs sizes.
Proof.
  intros Ec Emn Emx Hlt Hlo Hhi.
  destruct (normalize_column_exact c xs mn mx Ec Emn Emx Hlt Hlo Hhi)
    as (rs & Erun & _ & _ & F2).
  unfold marker_sizes. rewrite Erun. eexists. split; [reflexivity|].
  apply (Forall2_map_r _ _ _ _ _ F2).
  intros v r (q & -> & Hq). eexists. split; [reflexivity|].
  unfold size_of_price. now rewrite Hq.
Qed.

(** plotly accepts the marker sizes of such a column. *)
Lemma price_sizes_accepted `{Runtime} (c : column) :
  price_range_ok c = true ->
  exists sizes,
    marker_sizes c = inr sizes
    /\ scattermapbox_marker sizes "blue"
       = inr (mkMarker (SizeArray sizes) "blue" None None).
Proof.
  intros Hok.
  destruct (price_range_ok_spec c Hok)
    as (xs & mn & mx & Ec & Emn & Emx & Hlt & Hlo & Hhi).
  destruct (marker_sizes_exact c xs mn mx Ec Emn Emx Hlt Hlo Hhi)
    as (sizes & Esz & F2).
  exists sizes. split; [exact Esz|].
  unfold scattermapbox_marker.
  assert (Hall : forallb size_accepted sizes = true).
  { apply forallb_forall. intros r Hr.
    destruct (series_min_spec _ _ Emn) as [_ Hmin].
    destruct (series_max_spec _ _ Emx) as [_ Hmax].
    apply (Forall2_transfer _ (fun r => size_accepted r = true) _ _ F2);
      [|exact Hr].
    intros v r' Hv (q & -> & Hq). simpl. apply Qle_bool_iff.
    destruct (size_of_price_bounds mn mx v Hlt (conj (Hmin v Hv) (Hmax v Hv)))
      as [[Hge _] _].
    rewrite Hq. lra. }
  now rewrite Hall.
Qed.

End Sizes.

(** *** Calls with a valid dataset *)

Section ValidCalls.
Context `{Runtime}.

(** The outcome of [plotting_houses] on a valid dataset. *)
Lemma plotting_houses_valid (df : DataFrame) (fig : Figure)
    (p q b la lo legend : string) :
  valid_houses df p q b la lo = true ->
  exists price cq cb zs sizes lat lon,
    df !! p = Some price /\ is_numeric price = true
    /\ price_range_ok price = true
    /\ df !! q = Some cq /\ df !! b = Some cb
    /\ astype_int price = inr zs
    /\ marker_sizes price = inr sizes
    /\ <["hover_text" := StrCol (houses_hover zs cq cb)]> df !! la = Some lat
    /\ <["hover_text" := StrCol (houses_hover zs cq cb)]> df !! lo = Some lon
    /\ plotting_houses p q b la lo legend (df, fig)
       = (inr tt,
          (<["hover_text" := StrCol (houses_hover zs cq cb)]> df,
           add_trace
             (Scattermapbox
                (mkScatter (Data lat) (Data lon) "markers"
                   (Some (mkMarker (SizeArray sizes) "blue" None None))
                   None (Some (StrCol (houses_hover zs cq cb))) (Some "text")
                   legend true))
             fig)).
Proof.
  unfold valid_houses. intros Hv.
  repeat (apply andb_prop in Hv; destruct Hv as [Hv ?]).
  apply negb_true_iff, String.eqb_neq in Hv.
  destruct (df !! p) as [price|] eqn:Ep; [|discriminate].
  match goal with Hn : is_numeric price && price_range_ok price = true |- _ =>
    apply andb_prop in Hn; destruct Hn as [Hnum Hok] end.
  match goal with Hq : has_column df q = true |- _ =>
    destruct (has_column_true _ _ Hq) as [cq Eq] end.
  match goal with Hb : has_column df b = true |- _ =>
    destruct (has_column_true _ _ Hb) as [cb Eb] end.
  assert (Hprice : exists zs, astype_int price = inr zs).
  { destruct price; simpl in *; try discriminate; eauto. }
  destruct Hprice as (zs & Eint).
  destruct (price_sizes_accepted price Hok) as (sizes & Esz & Emk).
  destruct (lookup_after_hover df (StrCol (houses_hover zs cq cb)) la)
    as [lat Elat]; [assumption|].
  destruct (lookup_after_hover df (StrCol (houses_hover zs cq cb)) lo)
    as [lon Elon]; [assumption|].
  exists price, cq, cb, zs, sizes, lat, lon.
  repeat (split; [assumption || reflexivity|]).
  unfold plotting_houses. cbv zeta. unfold bind at 1.
  rewrite ensure_columns_present.
  2:{ intros c [<- | [<- | [<- | [<- | [<- | []]]]]]; auto.
      unfold has_column. now rewrite Ep. }
  run_step.
  rewrite Ep; simpl. rewrite Eint; simpl. rewrite Eq; simpl.
  rewrite Eb; simpl. fold (houses_hover zs cq cb).
  rewrite Elat; simpl. rewrite Elon; simpl.
  rewrite lookup_insert_ne by congruence. rewrite Ep; simpl.
  rewrite Esz; simpl. rewrite Emk; simpl.
  rewrite lookup_insert_eq. reflexivity.
Qed.

Lemma add_choropleth_map_valid (df : DataFrame) (fig : Figure)
    (counties : json) (zc hq legend : string) :
  valid_region df zc hq = true ->
  exists hover locations z,
    <["hover_text" := StrCol hover]> df !! zc = Some locations
    /\ <["hover_text" := StrCol hover]> df !! hq = Some z
    /\ add_choropleth_map counties zc hq legend (df, fig)
       = (inr tt,
          (<["hover_text" := StrCol hover]> df,
           add_trace
             (Choroplethmapbox
                (mkChoropleth counties locations z "Hot" false (4 # 10)
                   "properties.ZCTA5CE10" legend (StrCol hover) "text"
                   true))
             fig)).
Proof.
  unfold valid_region. intros Hv.
  apply andb_prop in Hv. destruct Hv as [Hz Hq].
  destruct (has_column_true _ _ Hz) as [cz Ez].
  destruct (has_column_true _ _ Hq) as [cq Eq].
  unfold add_choropleth_map. cbv zeta. unfold bind at 1.
  rewrite ensure_columns_present
    by (intros c [<- | [<- | []]]; assumption).
  run_step. rewrite Ez; simpl. rewrite Eq; simpl.
  set (hover := str_add _ _).
  destruct (lookup_after_hover df (StrCol hover) zc Hz) as [loc Eloc].
  destruct (lookup_after_hover df (StrCol hover) hq Hq) as [z Ezz].
  exists hover, loc, z. repeat (split; [assumption|]).
  rewrite Eloc; simpl. rewrite Ezz; simpl. rewrite lookup_insert_eq.
  reflexivity.
Qed.

Lemma add_schools_layer_valid (df : DataFrame) (fig : Figure)
    (la lo nm ds legend : string) :
  valid_schools df la lo nm ds = true ->
  exists hover lat lon,
    <["hover_text" := StrCol hover]> df !! la = Some lat
    /\ <["hover_text" := StrCol hover]> df !! lo = Some lon
    /\ add_schools_layer la lo nm ds legend (df, fig)
       = (inr tt,
          (<["hover_text" := StrCol hover]> df,
           add_trace
             (Scattermapbox
                (mkScatter (Data lat) (Data lon) "markers"
                   (Some (mkMarker (SizeNumber 4) "darkred" (Some (8 # 10))
                            (Some "circle")))
                   None (Some (StrCol hover)) (Some "text") legend true))
             fig)).
Proof.
  unfold valid_schools. intros Hv.
  repeat (apply andb_prop in Hv; destruct Hv as [Hv ?]).
  destruct (has_column_true _ _ Hv) as [cn En].
  destruct (df !! ds) as [[| |descs]|] eqn:Ed; try discriminate.
  unfold add_schools_layer. run_step.
  rewrite En; simpl. rewrite Ed; simpl.
  set (hover := str_add _ _).
  destruct (lookup_after_hover df (StrCol hover) la) as [lat Elat];
    [assumption|].
  destruct (lookup_after_hover df (StrCol hover) lo) as [lon Elon];
    [assumption|].
  exists hover, lat, lon. repeat (split; [assumption|]).
  rewrite Elat; simpl. rewrite Elon; simpl. rewrite lookup_insert_eq.
  reflexivity.
Qed.

(** *** Calls that return *)

Ltac step_through :=
  repeat first
    [ rewrite lookup_insert_eq
    | match goal with
      | |- context [match ?m !! ?k with _ => _ end] =>
          destruct (m !! k) eqn:?
      | |- context [match astype_int ?c with _ => _ end] =>
          destruct (astype_int c) eqn:?
      | |- context [match str_accessor ?c with _ => _ end] =>
          destruct (str_accessor c) eqn:?
      | |- context [match marker_sizes ?c with _ => _ end] =>
          destruct (marker_sizes c) eqn:?
      | |- context [match scattermapbox_marker ?l ?c with _ => _ end] =>
          destruct (scattermapbox_marker l c) eqn:?
      end; simpl; try (intros E0; discriminate E0) ].

(** A builder that returns has written ['hover_text'] and appended one
    trace, which carries the text written and the legend entry. *)
Lemma plotting_houses_returns (df df' : DataFrame) (fig fig' : Figure)
    (p q b la lo legend : string) :
  plotting_houses p q b la lo legend (df, fig) = (inr tt, (df', fig')) ->
  exists hover t,
    df' = <["hover_text" := StrCol hover]> df
    /\ fig' = add_trace t fig
    /\ trace_text t = Some (StrCol hover)
    /\ layer_kind t = (false, legend).
Proof.
  unfold plotting_houses. cbv zeta. unfold bind at 1.
  pose proof (ensure_columns_state [p; q; b; la; lo] (df, fig)) as Hs.
  destruct (ensure_columns [p; q; b; la; lo] (df, fig)) as [[e | []] s0];
    [discriminate|].
  simpl in Hs. subst s0. run_step. step_through.
  intros [= <- <-]. eexists _, _. repeat split.
Qed.

Lemma add_choropleth_map_returns (df df' : DataFrame) (fig fig' : Figure)
    (counties : json) (zc hq legend : string) :
  add_choropleth_map counties zc hq legend (df, fig) = (inr tt, (df', fig')) ->
  exists hover t,
    df' = <["hover_text" := StrCol hover]> df
    /\ fig' = add_trace t fig
    /\ trace_text t = Some (StrCol hover)
    /\ layer_kind t = (true, legend).
Proof.
  unfold add_choropleth_map. cbv zeta. unfold bind at 1.
  pose proof (ensure_columns_state [zc; hq] (df, fig)) as Hs.
  destruct (ensure_columns [zc; hq] (df, fig)) as [[e | []] s0];
    [discriminate|].
  simpl in Hs. subst s0. run_step. step_through.
  intros [= <- <-]. eexists _, _. repeat split.
Qed.

Lemma add_schools_layer_returns (df df' : DataFrame) (fig fig' : Figure)
    (la lo nm ds legend : string) :
  add_schools_layer la lo nm ds legend (df, fig) = (inr tt, (df', fig')) ->
  exists hover t,
    df' = <["hover_text" := StrCol hover]> df
    /\ fig' = add_trace t fig
    /\ trace_text t = Some (StrCol hover)
    /\ layer_kind t = (false, legend).
Proof.
  unfold add_schools_layer. run_step. step_through.
  intros [= <- <-]. eexists _, _. repeat split.
Qed.

End ValidCalls.

(** *** The overlay list under [add_park_outlines_layer] *)

Lemma update_elements_single (d : LayerDict) (cur : list MapboxLayer) (i : nat) :
  update_elements i cur [d] = map (update_layer d) cur.
Proof.
  revert i. induction cur as [|l cur IH]; intros i; [reflexivity|].
  cbn [update_elements length map]. rewrite Nat.mod_1_r.
  cbn [nth_error]. now rewrite IH.
Qed.

(** Updating with a one-element list: an empty list becomes that element;
    a non-empty list keeps its length and every entry is updated. *)
Lemma update_layers_single (d : LayerDict) (cur : list MapboxLayer) :
  update_layers cur [d]
  = match cur with
    | [] => [layer_of_dict d]
    | _ :: _ => map (update_layer d) cur
    end.
Proof.
  destruct cur as [|l cur]; [reflexivity|].
  unfold update_layers. rewrite update_elements_single.
  change (skipn (length (l :: cur)) [d]) with (skipn (length cur) (@nil LayerDict)).
  rewrite skipn_nil. simpl. now rewrite app_nil_r.
Qed.

Lemma park_overlays_after (parks : json) (legend : string) (fig : Figure) :
  let fig' := add_park_outlines_layer parks legend fig in
  data fig' = data fig ++ [park_legend_trace legend]
  /\ mapbox_layers (layout fig')
     = update_layers (mapbox_layers (layout fig)) [park_layer_dict parks]
  /\ length (mapbox_layers (layout fig'))
     = Nat.max 1 (length (mapbox_layers (layout fig)))
  /\ Forall (is_park_overlay parks) (mapbox_layers (layout fig')).
Proof.
  simpl. split; [reflexivity|]. split; [reflexivity|].
  rewrite update_layers_single.
  destruct (mapbox_layers (layout fig)) as [|l cur].
  - split; [reflexivity|]. repeat constructor.
  - split; [now rewrite length_map|].
    apply Forall_map. apply List.Forall_forall. intros l' _.
    repeat split.
Qed.

Lemma last_marker_sizes_add (t : Trace) (fig : Figure) :
  last_marker_sizes (add_trace t fig) = marker_sizes_of t.
Proof.
  unfold last_marker_sizes, add_trace. simpl. now rewrite rev_unit.
Qed.

Section BuilderClaims.
Context `{Runtime}.

(** C7, as the code has it: called with a valid dataset (for the houses:
    the five columns, and a numeric price column with at least two
    distinct values, of magnitude at most [2^52], that is not the column
    ['hover_text']), the house,
    school and region builders return normally and leave the figure with
    its earlier traces, in their order, followed by exactly one new trace
    (a Scattermapbox for houses and schools, a Choroplethmapbox for the
    region), the layout untouched.  The outline builder appends exactly
    one trace, the legend entry, and registers the park overlay in the
    layout with a one-element list: a figure without overlays then has
    exactly that one; a figure with overlays keeps their number, and in
    every case the overlay list is non-empty and each of its entries
    carries the park geometry. *)
Theorem valid_call_appends_one_layer (fig : Figure) :
  (forall df p q b la lo legend,
      valid_houses df p q b la lo = true ->
      exists df' t,
        plotting_houses p q b la lo legend (df, fig)
        = (inr tt, (df', mkFigure (data fig ++ [Scattermapbox t]) (layout fig)))
        /\ sc_name t = legend)
  /\ (forall df la lo nm ds legend,
      valid_schools df la lo nm ds = true ->
      exists df' t,
        add_schools_layer la lo nm ds legend (df, fig)
        = (inr tt, (df', mkFigure (data fig ++ [Scattermapbox t]) (layout fig)))
        /\ sc_name t = legend)
  /\ (forall df counties zc hq legend,
      valid_region df zc hq = true ->
      exists df' t,
        add_choropleth_map counties zc hq legend (df, fig)
        = (inr tt,
           (df', mkFigure (data fig ++ [Choroplethmapbox t]) (layout fig)))
        /\ ch_name t = legend)
  /\ (forall parks legend,
      let fig' := add_park_outlines_layer parks legend fig in
      data fig' = data fig ++ [park_legend_trace legend]
      /\ mapbox_layers (layout fig')
         = update_layers (mapbox_layers (layout fig)) [park_layer_dict parks]
      /\ (mapbox_layers (layout fig) = [] ->
          mapbox_layers (layout fig') = [layer_of_dict (park_layer_dict parks)])
      /\ length (mapbox_layers (layout fig'))
         = Nat.max 1 (length (mapbox_layers (layout fig)))
      /\ Forall (is_park_overlay parks) (mapbox_layers (layout fig'))).
Proof.
  split; [|split; [|split]].
  - intros df p q b la lo legend Hv.
    destruct (plotting_houses_valid df fig p q b la lo legend Hv)
      as (price & cq & cb & zs & sizes & lat & lon
          & _ & _ & _ & _ & _ & _ & _ & _ & _ & Erun).
    rewrite Erun. eexists _, _. split; reflexivity.
  - intros df la lo nm ds legend Hv.
    destruct (add_schools_layer_valid df fig la lo nm ds legend Hv)
      as (hover & lat & lon & _ & _ & Erun).
    rewrite Erun. eexists _, _. split; reflexivity.
  - intros df counties zc hq legend Hv.
    destruct (add_choropleth_map_valid df fig counties zc hq legend Hv)
      as (hover & loc & z & _ & _ & Erun).
    rewrite Erun. eexists _, _. split; reflexivity.
  - intros parks legend fig'.
    destruct (park_overlays_after parks legend fig) as (D & L & N & P).
    split; [exact D|]. split; [exact L|]. split; [|split; [exact N | exact P]].
    intros E. subst fig'. rewrite L, E. reflexivity.
Qed.

(** C5, as the code has it: for every dataset, figure and column names,
    a builder that takes a dataset and completes has written one column
    onto it, ['hover_text'] (added or overwritten), holding the per-row
    text that the one new trace also carries; every other column of the
    dataset is as it was. *)
Theorem builders_write_hover_text (df df' : DataFrame) (fig fig' : Figure) :
  (forall p q b la lo legend,
      plotting_houses p q b la lo legend (df, fig) = (inr tt, (df', fig')) ->
      exists hover t,
        df' = <["hover_text" := StrCol hover]> df
        /\ fig' = add_trace t fig
        /\ trace_text t = Some (StrCol hover))
  /\ (forall la lo nm ds legend,
      add_schools_layer la lo nm ds legend (df, fig) = (inr tt, (df', fig')) ->
      exists hover t,
        df' = <["hover_text" := StrCol hover]> df
        /\ fig' = add_trace t fig
        /\ trace_text t = Some (StrCol hover))
  /\ (forall counties zc hq legend,
      add_choropleth_map counties zc hq legend (df, fig)
      = (inr tt, (df', fig')) ->
      exists hover t,
        df' = <["hover_text" := StrCol hover]> df
        /\ fig' = add_trace t fig
        /\ trace_text t = Some (StrCol hover))
  /\ (forall (hover : list string) (col : string),
      col <> "hover_text" ->
      <["hover_text" := StrCol hover]> df !! col = df !! col).
Proof.
  split; [|split; [|split]].
  - intros p q b la lo legend E.
    destruct (plotting_houses_returns _ _ _ _ _ _ _ _ _ _ E)
      as (hover & t & Hdf & Hfig & Htext & _).
    now exists hover, t.
  - intros la lo nm ds legend E.
    destruct (add_schools_layer_returns _ _ _ _ _ _ _ _ _ E)
      as (hover & t & Hdf & Hfig & Htext & _).
    now exists hover, t.
  - intros counties zc hq legend E.
    destruct (add_choropleth_map_returns _ _ _ _ _ _ _ _ E)
      as (hover & t & Hdf & Hfig & Htext & _).
    now exists hover, t.
  - intros hover col Hc. apply lookup_insert_ne. congruence.
Qed.

(** C2, as the code computes it: for prices 100, 200, 300 the
    normalised values are 0, 1/2, 1, so the marker sizes
    [(n + 1) * 10] are 10, 15, 20. *)
Theorem house_marker_sizes_10_15_20 (df : DataFrame) (fig : Figure)
    (p q b la lo legend : string) :
  valid_houses df p q b la lo = true ->
  df !! p = Some (IntCol [100; 200; 300]%Z)
  \/ df !! p = Some (FloatCol [100; 200; 300]%Q) ->
  exists df' fig' sizes,
    plotting_houses p q b la lo legend (df, fig) = (inr tt, (df', fig'))
    /\ length (data fig') = S (length (data fig))
    /\ last_marker_sizes fig' = Some sizes
    /\ fnums_eqb sizes [Finite 10; Finite 15; Finite 20] = true.
Proof.
  intros Hv Hp.
  destruct (plotting_houses_valid df fig p q b la lo legend Hv)
    as (price & cq & cb & zs & sizes & lat & lon
        & Ep & _ & _ & _ & _ & _ & Esz & _ & _ & Erun).
  rewrite Erun. eexists _, _, sizes. split; [reflexivity|].
  split; [unfold add_trace; simpl; rewrite length_app; simpl; lia|].
  split; [apply last_marker_sizes_add|].
  destruct Hp as [Hp | Hp]; rewrite Hp in Ep; injection Ep as <-;
    vm_compute in Esz; injection Esz as <-; reflexivity.
Qed.

End BuilderClaims.

Lemma valid_call_appends_one_layer_witness :
  exists df' t,
    @plotting_houses sample_runtime "price" "house_quality" "bedrooms" "lat"
      "long" houses_legend (three_houses, new_figure)
    = (inr tt, (df', mkFigure ([] ++ [Scattermapbox t]) empty_layout))
    /\ sc_name t = houses_legend.
Proof.
  destruct (@valid_call_appends_one_layer sample_runtime new_figure)
    as [Hhouses _].
  apply (Hhouses three_houses). reflexivity.
Defined.

(** C7 fails as stated.  A dataset of one house has all five columns and
    a numeric price, yet [plotting_houses] raises [ValueError] on it (the
    one marker size is [nan]) and the figure has no trace more; and on a
    figure that holds two overlays the outline builder registers no
    further overlay: the two entries are overwritten with the park
    geometry. *)
Lemma valid_dataset_may_add_no_layer :
  Forall (fun col => has_column one_house col = true)
         ["price"; "house_quality"; "bedrooms"; "lat"; "long"]
  /\ one_house !! "price" = Some (IntCol [450000]%Z)
  /\ (exists msg,
        fst (@plotting_houses sample_runtime "price" "house_quality"
               "bedrooms" "lat" "long" houses_legend (one_house, new_figure))
        = inl (ValueError msg))
  /\ data (snd (snd (@plotting_houses sample_runtime "price" "house_quality"
                       "bedrooms" "lat" "long" houses_legend
                       (one_house, new_figure))))
     = data new_figure
  /\ length (mapbox_layers (layout two_overlays)) = 2
  /\ length (mapbox_layers
               (layout (add_park_outlines_layer sample_parks parks_legend
                          two_overlays))) = 2
  /\ Forall (is_park_overlay sample_parks)
       (mapbox_layers
          (layout (add_park_outlines_layer sample_parks parks_legend
                     two_overlays))).
Proof.
  split; [repeat constructor|]. split; [reflexivity|].
  split; [eexists; vm_compute; reflexivity|].
  split; [vm_compute; reflexivity|].
  split; [reflexivity|]. split; [reflexivity|].
  vm_compute. repeat constructor.
Qed.

Lemma builders_write_hover_text_witness :
  exists hover t,
    fst (snd (@add_choropleth_map sample_runtime sample_counties "zipcode"
                "house_quality" choropleth_legend (two_zipcodes, new_figure)))
    = <["hover_text" := StrCol hover]> two_zipcodes
    /\ snd (snd (@add_choropleth_map sample_runtime sample_counties "zipcode"
                   "house_quality" choropleth_legend
                   (two_zipcodes, new_figure)))
       = add_trace t new_figure
    /\ trace_text t = Some (StrCol hover).
Proof.
  destruct (@builders_write_hover_text sample_runtime two_zipcodes
              (fst (snd (@add_choropleth_map sample_runtime sample_counties
                           "zipcode" "house_quality" choropleth_legend
                           (two_zipcodes, new_figure))))
              new_figure
              (snd (snd (@add_choropleth_map sample_runtime sample_counties
                           "zipcode" "house_quality" choropleth_legend
                           (two_zipcodes, new_figure)))))
    as (_ & _ & Hregion & _).
  apply (Hregion sample_counties "zipcode" "house_quality" choropleth_legend).
  vm_compute. reflexivity.
Defined.

(** C5 fails as stated: after [plotting_houses] the caller's dataset is
    not the dataset that was passed in (it has gained ['hover_text']). *)
Lemma plotting_houses_changes_the_dataset :
  has_column three_houses "hover_text" = false
  /\ has_column
       (fst (snd (@plotting_houses sample_runtime "price" "house_quality"
                    "bedrooms" "lat" "long" houses_legend
                    (three_houses, new_figure))))
       "hover_text" = true
  /\ fst (snd (@plotting_houses sample_runtime "price" "house_quality"
                 "bedrooms" "lat" "long" houses_legend
                 (three_houses, new_figure)))
     <> three_houses.
Proof.
  split; [reflexivity|]. split; [reflexivity|].
  intros E. apply (f_equal (fun df => has_column df "hover_text")) in E.
  vm_compute in E. discriminate.
Qed.

Lemma house_marker_sizes_10_15_20_witness :
  exists df' fig' sizes,
    @plotting_houses sample_runtime "price" "house_quality" "bedrooms" "lat"
      "long" houses_legend (three_houses, new_figure) = (inr tt, (df', fig'))
    /\ length (data fig') = S (length (data new_figure))
    /\ last_marker_sizes fig' = Some sizes
    /\ fnums_eqb sizes [Finite 10; Finite 15; Finite 20] = true.
Proof.
  apply (@house_marker_sizes_10_15_20 sample_runtime three_houses new_figure);
    [reflexivity | left; reflexivity].
Defined.

(** C2 fails as stated: for the prices 100, 200, 300 the marker sizes of
    the house layer are not 10, 20, 30. *)
Lemma house_marker_sizes_not_10_20_30 :
  exists sizes,
    last_marker_sizes
      (snd (snd (@plotting_houses sample_runtime "price" "house_quality"
                   "bedrooms" "lat" "long" houses_legend
                   (three_houses, new_figure))))
    = Some sizes
    /\ fnums_eqb sizes [Finite 10; Finite 20; Finite 30] = false.
Proof. eexists. split; vm_compute; reflexivity. Qed.

(** ** The overlay registration and the layout finalizer *)

(** C10, as plotly performs the update: on a figure with at most one
    overlay (every figure that this module builds from [go.Figure()]) the
    outline builder leaves exactly one overlay entry, carrying the park
    geometry, and appends one legend trace; a second call on the result
    gives two legend traces and still exactly one overlay entry, now with
    the geometry of the second call. *)
Theorem park_overlay_stays_single (fig : Figure) (parks parks2 : json)
    (legend legend2 : string) :
  length (mapbox_layers (layout fig)) <= 1 ->
  let fig1 := add_park_outlines_layer parks legend fig in
  let fig2 := add_park_outlines_layer parks2 legend2 fig1 in
  data fig1 = data fig ++ [park_legend_trace legend]
  /\ (exists l, mapbox_layers (layout fig1) = [l] /\ is_park_overlay parks l)
  /\ data fig2
     = data fig ++ [park_legend_trace legend; park_legend_trace legend2]
  /\ (exists l, mapbox_layers (layout fig2) = [l] /\ is_park_overlay parks2 l).
Proof.
  intros Hlen fig1 fig2.
  destruct (park_overlays_after parks legend fig) as (D1 & _ & N1 & P1).
  destruct (park_overlays_after parks2 legend2 fig1) as (D2 & _ & N2 & P2).
  fold fig1 in D1, N1, P1. fold fig2 in D2, N2, P2.
  assert (N1' : length (mapbox_layers (layout fig1)) = 1) by lia.
  assert (N2' : length (mapbox_layers (layout fig2)) = 1) by lia.
  split; [exact D1|]. split.
  { destruct (mapbox_layers (layout fig1)) as [|l [|]]; try discriminate.
    exists l. split; [reflexivity|]. now inversion P1. }
  split; [rewrite D2, D1, <- app_assoc; reflexivity|].
  destruct (mapbox_layers (layout fig2)) as [|l [|]]; try discriminate.
  exists l. split; [reflexivity|]. now inversion P2.
Qed.

Lemma park_overlay_stays_single_witness :
  exists l,
    mapbox_layers
      (layout (add_park_outlines_layer sample_counties parks_legend
                 (add_park_outlines_layer sample_parks parks_legend
                    new_figure)))
    = [l]
    /\ is_park_overlay sample_counties l.
Proof.
  apply (park_overlay_stays_single new_figure sample_parks sample_counties
           parks_legend parks_legend).
  simpl. lia.
Defined.

(** C10 fails as stated: it is not so that after the outline builder the
    layout holds exactly one overlay entry whatever it held before.  A
    figure with two overlays keeps two entries (both rewritten). *)
Lemma park_overlay_not_always_single :
  ~ (forall (fig : Figure) (parks : json) (legend : string),
        length (mapbox_layers
                  (layout (add_park_outlines_layer parks legend fig))) = 1).
Proof.
  intros Hall.
  specialize (Hall two_overlays sample_parks parks_legend).
  vm_compute in Hall. discriminate.
Qed.

(** C8: the layout finalizer is idempotent.  With the same centre and
    style, a second call leaves the figure (its layout: style, zoom,
    centre, margins, legend, width, height, and the overlays; and its
    traces) as the first call left it. *)
Theorem update_map_layout_idempotent (fig : Figure) (lat lon : Q)
    (style : string) :
  let once := update_map_layout lat lon style fig in
  update_map_layout lat lon style once = once
  /\ layout once
     = mkLayout (Some style) (Some 9%Q) (Some lat) (Some lon)
         (mapbox_layers (layout fig))
         (mkMargin (Some 0%Q) (Some 0%Q) (Some 0%Q) (Some 0%Q))
         (mkLegend (Some "Legend") (Some "v") (Some "top") (Some (99 # 100))
                   (Some "left") (Some (1 # 100)))
         (Some 1000%Q) (Some 1000%Q)
  /\ data once = data fig.
Proof. repeat split. Qed.

(** ** The orchestrator *)

Lemma same_inputs_refl (fs : nat -> DataFrame) : same_inputs fs fs.
Proof. intros r col _. reflexivity. Qed.

Lemma same_inputs_store (fs : nat -> DataFrame) (r : nat) (c : column) :
  same_inputs fs (store_frame r (<["hover_text" := c]> (fs r)) fs).
Proof.
  intros r' col Hc. unfold store_frame.
  destruct (Nat.eqb_spec r' r) as [-> | Hne]; [|reflexivity].
  rewrite lookup_insert_ne by congruence. reflexivity.
Qed.

(** With the default column names, what a builder accepts does not depend
    on the column ['hover_text']. *)
Lemma valid_region_same (fs fs' : nat -> DataFrame) (r : nat) :
  same_inputs fs fs' ->
  valid_region (fs' r) "zipcode" "house_quality"
  = valid_region (fs r) "zipcode" "house_quality".
Proof.
  intros Hs. unfold valid_region, has_column.
  rewrite !Hs by discriminate. reflexivity.
Qed.

Lemma valid_schools_same (fs fs' : nat -> DataFrame) (r : nat) :
  same_inputs fs fs' ->
  valid_schools (fs' r) "LAT_CEN" "LONG_CEN" "ABB_NAME" "FEATUREDES"
  = valid_schools (fs r) "LAT_CEN" "LONG_CEN" "ABB_NAME" "FEATUREDES".
Proof.
  intros Hs. unfold valid_schools, has_column.
  rewrite !Hs by discriminate. reflexivity.
Qed.

Lemma valid_houses_same (fs fs' : nat -> DataFrame) (r : nat) :
  same_inputs fs fs' ->
  valid_houses (fs' r) "price" "house_quality" "bedrooms" "lat" "long"
  = valid_houses (fs r) "price" "house_quality" "bedrooms" "lat" "long".
Proof.
  intros Hs. unfold valid_houses, has_column.
  rewrite !Hs by discriminate. reflexivity.
Qed.

(** *** Which traces a computation can add *)

Lemma extends_refl (f : Figure) : extends_by_scatter f f.
Proof. exists []. split; [now rewrite app_nil_r | constructor]. Qed.

Lemma extends_trans (f g h : Figure) :
  extends_by_scatter f g -> extends_by_scatter g h -> extends_by_scatter f h.
Proof.
  intros (t1 & D1 & F1) (t2 & D2 & F2). exists (t1 ++ t2). split.
  - rewrite D2, D1. now rewrite app_assoc.
  - apply List.Forall_app. now split.
Qed.

Section ScatterOnly.
Context {S : Type} (fig_of : S -> Figure).

Lemma scatter_bind {A B} (m : M S A) (k : A -> M S B) :
  adds_only_scatter fig_of m -> (forall a, adds_only_scatter fig_of (k a)) ->
  adds_only_scatter fig_of (bind m k).
Proof.
  intros Hm Hk s. unfold bind. specialize (Hm s).
  destruct (m s) as [[e | a] s'] eqn:E; simpl in *.
  - exact Hm.
  - eapply extends_trans; [exact Hm | apply Hk].
Qed.

Lemma scatter_ret {A} (a : A) : adds_only_scatter fig_of (ret a).
Proof. intros s. apply extends_refl. Qed.

Lemma scatter_raise {A} (e : exn) : adds_only_scatter fig_of (@raise S A e).
Proof. intros s. apply extends_refl. Qed.

Lemma scatter_lift {A} (r : exn + A) : adds_only_scatter fig_of (lift r).
Proof. destruct r; [apply scatter_raise | apply scatter_ret]. Qed.

Lemma scatter_for_each {A} (xs : list A) (body : A -> M S unit) :
  (forall x, adds_only_scatter fig_of (body x)) ->
  adds_only_scatter fig_of (for_each xs body).
Proof.
  intros Hb. induction xs as [|x xs IH]; simpl.
  - apply scatter_ret.
  - apply scatter_bind; auto.
Qed.
End ScatterOnly.

Lemma scatter_df_get (col : string) : adds_only_scatter snd (df_get col).
Proof. intros s. apply extends_refl. Qed.

Lemma scatter_df_has (col : string) : adds_only_scatter snd (df_has col).
Proof. intros s. apply extends_refl. Qed.

Lemma scatter_df_set (col : string) (c : column) :
  adds_only_scatter snd (df_set col c).
Proof. intros s. apply extends_refl. Qed.

Lemma scatter_add_trace (p : ScatterProps) :
  adds_only_scatter snd (fig_add_trace (Scattermapbox p)).
Proof.
  intros s. exists [Scattermapbox p]. split; [reflexivity | repeat constructor].
Qed.

Lemma scatter_ensure (req : list string) :
  adds_only_scatter snd (ensure_columns req).
Proof.
  apply scatter_for_each. intros col.
  apply scatter_bind; [apply scatter_df_has|].
  intros present. destruct (negb present);
    [apply scatter_raise | apply scatter_ret].
Qed.

Ltac scatter_steps :=
  repeat first
    [ apply scatter_ensure | apply scatter_df_get | apply scatter_df_set
    | apply scatter_lift | apply scatter_add_trace | apply scatter_ret
    | apply scatter_bind; [|intros ?] ].

Lemma scatter_with_frame (function : string) (r : nat) (m : M objects unit) :
  adds_only_scatter snd m -> adds_only_scatter figure (with_frame function r m).
Proof.
  intros Hm w. unfold with_frame. specialize (Hm (frames w r, figure w)).
  destruct (m (frames w r, figure w)) as [res [df' fig']]. exact Hm.
Qed.

Lemma scatter_on_fig (function : string) (f : Figure -> Figure) :
  (forall fig, extends_by_scatter fig (f fig)) ->
  adds_only_scatter figure (on_fig function f).
Proof. intros Hf w. apply Hf. Qed.

Lemma extends_park (parks : json) (legend : string) (fig : Figure) :
  extends_by_scatter fig (add_park_outlines_layer parks legend fig).
Proof.
  exists [park_legend_trace legend]. split; [reflexivity | repeat constructor].
Qed.

Lemma extends_update_map_layout (lat lon : Q) (style : string) (fig : Figure) :
  extends_by_scatter fig (update_map_layout lat lon style fig).
Proof. exists []. split; [simpl; now rewrite app_nil_r | constructor]. Qed.

Lemma bind_returns {S A B} (m : M S A) (k : A -> M S B) (s s' : S) (b : B) :
  bind m k s = (inr b, s') ->
  exists a s1, m s = (inr a, s1) /\ k a s1 = (inr b, s').
Proof. unfold bind. destruct (m s) as [[e | a] s1]; [discriminate | eauto]. Qed.

Section Requests.
Context `{Runtime} `{Renderer}.

Lemma scatter_show : adds_only_scatter figure fig_show.
Proof.
  intros w. unfold fig_show. destruct (show_error (figure w));
    apply extends_refl.
Qed.

Lemma scatter_write_image (path : string) :
  adds_only_scatter figure (fig_write_image path).
Proof.
  intros w. unfold fig_write_image.
  destruct (write_image_error path (figure w)); apply extends_refl.
Qed.

Lemma plotting_houses_scatter_only (p q b la lo legend : string) :
  adds_only_scatter snd (plotting_houses p q b la lo legend).
Proof. unfold plotting_houses. cbv zeta. scatter_steps. Qed.

Lemma add_schools_layer_scatter_only (la lo nm ds legend : string) :
  adds_only_scatter snd (add_schools_layer la lo nm ds legend).
Proof. unfold add_schools_layer. scatter_steps. Qed.

(** *** One optional layer at a time *)

Ltac layer_skipped w0 :=
  exists w0; split; [reflexivity|]; split; [apply same_inputs_refl|];
  split; [reflexivity|]; split; [reflexivity|];
  split; now rewrite app_nil_r.

Ltac layer_added Erun :=
  eexists; unfold with_frame; rewrite Erun; split; [reflexivity|]; simpl;
  split; [apply same_inputs_store|]; split; [reflexivity|];
  split; [reflexivity|]; split; [now rewrite map_app | reflexivity].

Lemma region_step_ok (dc : option nat) (county : option json) (w0 : World) :
  (forall d c, dc = Some d -> county = Some c ->
     valid_region (frames w0 d) "zipcode" "house_quality" = true) ->
  exists w1,
    match dc, county with
    | Some d, Some c =>
        with_frame "add_choropleth_map" d
          (add_choropleth_map c "zipcode" "house_quality" choropleth_legend)
    | _, _ => ret tt
    end w0 = (inr tt, w1)
    /\ same_inputs (frames w0) (frames w1)
    /\ shown w1 = shown w0
    /\ layout (figure w1) = layout (figure w0)
    /\ map layer_kind (data (figure w1))
       = map layer_kind (data (figure w0))
         ++ match dc, county with
            | Some _, Some _ => [(true, choropleth_legend)]
            | _, _ => []
            end
    /\ calls w1
       = calls w0
         ++ match dc, county with
            | Some _, Some _ => [Called "add_choropleth_map" (figure w0)]
            | _, _ => []
            end.
Proof.
  intros Hv.
  destruct dc as [d|], county as [c|]; try layer_skipped w0.
  destruct (add_choropleth_map_valid (frames w0 d) (figure w0) c
              "zipcode" "house_quality" choropleth_legend
              (Hv d c eq_refl eq_refl))
    as (hover & loc & z & _ & _ & Erun).
  layer_added Erun.
Qed.

Lemma schools_step_ok (ds : option nat) (w0 : World) :
  (forall d, ds = Some d ->
     valid_schools (frames w0 d) "LAT_CEN" "LONG_CEN" "ABB_NAME"
                   "FEATUREDES" = true) ->
  exists w1,
    match ds with
    | Some d =>
        with_frame "add_schools_layer" d
          (add_schools_layer "LAT_CEN" "LONG_CEN" "ABB_NAME" "FEATUREDES"
                             schools_legend)
    | None => ret tt
    end w0 = (inr tt, w1)
    /\ same_inputs (frames w0) (frames w1)
    /\ shown w1 = shown w0
    /\ layout (figure w1) = layout (figure w0)
    /\ map layer_kind (data (figure w1))
       = map layer_kind (data (figure w0))
         ++ match ds with
            | Some _ => [(false, schools_legend)]
            | None => []
            end
    /\ calls w1
       = calls w0
         ++ match ds with
            | Some _ => [Called "add_schools_layer" (figure w0)]
            | None => []
            end.
Proof.
  intros Hv. destruct ds as [d|]; try layer_skipped w0.
  destruct (add_schools_layer_valid (frames w0 d) (figure w0)
              "LAT_CEN" "LONG_CEN" "ABB_NAME" "FEATUREDES" schools_legend
              (Hv d eq_refl))
    as (hover & lat & lon & _ & _ & Erun).
  layer_added Erun.
Qed.

Lemma houses_step_ok (dh : option nat) (w0 : World) :
  (forall d, dh = Some d ->
     valid_houses (frames w0 d) "price" "house_quality" "bedrooms" "lat"
                  "long" = true) ->
  exists w1,
    match dh with
    | Some d =>
        with_frame "plotting_houses" d
          (plotting_houses "price" "house_quality" "bedrooms" "lat" "long"
                           houses_legend)
    | None => ret tt
    end w0 = (inr tt, w1)
    /\ same_inputs (frames w0) (frames w1)
    /\ shown w1 = shown w0
    /\ layout (figure w1) = layout (figure w0)
    /\ map layer_kind (data (figure w1))
       = map layer_kind (data (figure w0))
         ++ match dh with
            | Some _ => [(false, houses_legend)]
            | None => []
            end
    /\ calls w1
       = calls w0
         ++ match dh with
            | Some _ => [Called "plotting_houses" (figure w0)]
            | None => []
            end.
Proof.
  intros Hv. destruct dh as [d|]; try layer_skipped w0.
  destruct (plotting_houses_valid (frames w0 d) (figure w0)
              "price" "house_quality" "bedrooms" "lat" "long" houses_legend
              (Hv d eq_refl))
    as (price & cq & cb & zs & sizes & lat & lon
        & _ & _ & _ & _ & _ & _ & _ & _ & _ & Erun).
  layer_added Erun.
Qed.

(** *** A whole request with valid datasets

    References may coincide: the datasets are read at the moment their
    builder runs, after the earlier builders wrote ['hover_text'].  The
    figures [g1] to [g4] are the figure after the region, outline, school
    and house steps. *)
Lemma vizualize_findings_ok
    (dh ds dc : option nat) (parks county : option json)
    (save_png : option string) (lat lon : Q) (style : string) (w : World) :
  (forall d c, dc = Some d -> county = Some c ->
     valid_region (frames w d) "zipcode" "house_quality" = true) ->
  (forall d, ds = Some d ->
     valid_schools (frames w d) "LAT_CEN" "LONG_CEN" "ABB_NAME"
                   "FEATUREDES" = true) ->
  (forall d, dh = Some d ->
     valid_houses (frames w d) "price" "house_quality" "bedrooms" "lat"
                  "long" = true) ->
  (forall fig, show_error fig = None) ->
  (forall path fig, write_image_error path fig = None) ->
  exists w' g1 g2 g3 g4,
    vizualize_findings dh ds dc parks county save_png lat lon style w
    = (inr tt, w')
    /\ map layer_kind (data (figure w'))
       = match dc, county with
         | Some _, Some _ => [(true, choropleth_legend)]
         | _, _ => []
         end
         ++ match parks with Some _ => [(false, parks_legend)] | None => [] end
         ++ match ds with Some _ => [(false, schools_legend)] | None => [] end
         ++ match dh with Some _ => [(false, houses_legend)] | None => [] end
    /\ layout (figure w')
       = layout (update_map_layout lat lon style (layers_figure parks))
    /\ shown w'
       = shown w ++ Show (figure w')
           :: match save_png with
              | Some path => [WriteImage path (figure w')]
              | None => []
              end
    /\ calls w'
       = calls w
         ++ match dc, county with
            | Some _, Some _ => [Called "add_choropleth_map" new_figure]
            | _, _ => []
            end
         ++ match parks with
            | Some _ => [Called "add_park_outlines_layer" g1]
            | None => []
            end
         ++ match ds with
            | Some _ => [Called "add_schools_layer" g2]
            | None => []
            end
         ++ match dh with
            | Some _ => [Called "plotting_houses" g3]
            | None => []
            end
         ++ [Called "update_map_layout" g4]
    /\ map layer_kind (data g1)
       = match dc, county with
         | Some _, Some _ => [(true, choropleth_legend)]
         | _, _ => []
         end
    /\ map layer_kind (data g2)
       = map layer_kind (data g1)
         ++ match parks with Some _ => [(false, parks_legend)] | None => [] end
    /\ map layer_kind (data g3)
       = map layer_kind (data g2)
         ++ match ds with Some _ => [(false, schools_legend)] | None => [] end
    /\ data g4 = data (figure w')
    /\ figure w' = update_map_layout lat lon style g4.
Proof.
  intros Hr Hs Hh Hshow Hwrite. unfold vizualize_findings.
  set (w0 := mkWorld (frames w) new_figure (shown w) (calls w)).
  destruct (region_step_ok dc county w0 Hr)
    as (w1 & E1 & S1 & Sh1 & L1 & D1 & C1).
  set (w2 := match parks with
             | Some p =>
                 mkWorld (frames w1)
                   (add_park_outlines_layer p parks_legend (figure w1))
                   (shown w1) (log_call "add_park_outlines_layer" w1)
             | None => w1
             end).
  assert (E2 : match parks with
               | Some p =>
                   on_fig "add_park_outlines_layer"
                     (add_park_outlines_layer p parks_legend)
               | None => ret tt
               end w1 = (inr tt, w2))
    by (subst w2; destruct parks; reflexivity).
  assert (F2 : frames w2 = frames w1)
    by (subst w2; destruct parks; reflexivity).
  assert (Sh2 : shown w2 = shown w1)
    by (subst w2; destruct parks; reflexivity).
  assert (L2 : layout (figure w2) = layout (layers_figure parks)).
  { subst w2. destruct parks; simpl; [|exact L1].
    unfold update_layout_mapbox_layers. simpl. rewrite L1. reflexivity. }
  assert (D2 : map layer_kind (data (figure w2))
               = map layer_kind (data (figure w1))
                 ++ match parks with
                    | Some _ => [(false, parks_legend)]
                    | None => []
                    end).
  { subst w2. destruct parks; simpl; [|now rewrite app_nil_r].
    now rewrite map_app. }
  assert (C2 : calls w2
               = calls w1
                 ++ match parks with
                    | Some _ => [Called "add_park_outlines_layer" (figure w1)]
                    | None => []
                    end).
  { subst w2. destruct parks; simpl; [reflexivity | now rewrite app_nil_r]. }
  destruct (schools_step_ok ds w2) as (w3 & E3 & S3 & Sh3 & L3 & D3 & C3).
  { intros d Hd. rewrite F2, (valid_schools_same _ _ d S1). now apply Hs. }
  destruct (houses_step_ok dh w3) as (w4 & E4 & S4 & Sh4 & L4 & D4 & C4).
  { intros d Hd. rewrite (valid_houses_same _ _ d S3), F2,
      (valid_houses_same _ _ d S1). now apply Hh. }
  set (w5 := mkWorld (frames w4)
               (update_map_layout lat lon style (figure w4)) (shown w4)
               (log_call "update_map_layout" w4)).
  set (w6 := mkWorld (frames w5) (figure w5) (shown w5 ++ [Show (figure w5)])
               (calls w5)).
  set (w7 := match save_png with
             | Some path =>
                 mkWorld (frames w6) (figure w6)
                   (shown w6 ++ [WriteImage path (figure w6)]) (calls w6)
             | None => w6
             end).
  exists w7, (figure w1), (figure w2), (figure w3), (figure w4). split.
  - unfold bind at 1. unfold fresh_figure at 1, modify at 1. fold w0.
    rewrite (bind_ok _ _ _ _ _ E1), (bind_ok _ _ _ _ _ E2),
      (bind_ok _ _ _ _ _ E3), (bind_ok _ _ _ _ _ E4).
    unfold bind at 1. unfold on_fig at 1, modify at 1. fold w5.
    unfold bind at 1. unfold fig_show at 1. rewrite Hshow. fold w6.
    subst w7. destruct save_png; [|reflexivity].
    unfold fig_write_image. now rewrite Hwrite.
  - assert (Fig7 : figure w7 = figure w5)
      by (subst w7; destruct save_png; reflexivity).
    assert (C7 : calls w7 = calls w5)
      by (subst w7; destruct save_png; reflexivity).
    rewrite Fig7, C7.
    split; [|split; [|split; [|split; [|split; [|split; [|split; [|split]]]]]]].
    + simpl. rewrite D4, D3, D2, D1. simpl. now rewrite <- !app_assoc.
    + simpl. rewrite L4, L3, L2. reflexivity.
    + subst w7. destruct save_png; simpl; rewrite Sh4, Sh3, Sh2, Sh1; simpl;
        [rewrite <- app_assoc|]; reflexivity.
    + simpl. unfold log_call. rewrite C4, C3, C2, C1. simpl.
      now rewrite <- !app_assoc.
    + exact D1.
    + exact D2.
    + exact D3.
    + reflexivity.
    + reflexivity.
Qed.

(** *** A request that returns *)

Lemma region_step_returns (dc : option nat) (county : option json)
    (w0 w1 : World) :
  match dc, county with
  | Some d, Some c =>
      with_frame "add_choropleth_map" d
        (add_choropleth_map c "zipcode" "house_quality" choropleth_legend)
  | _, _ => ret tt
  end w0 = (inr tt, w1) ->
  shown w1 = shown w0
  /\ layout (figure w1) = layout (figure w0)
  /\ map layer_kind (data (figure w1))
     = map layer_kind (data (figure w0))
       ++ match dc, county with
          | Some _, Some _ => [(true, choropleth_legend)]
          | _, _ => []
          end
  /\ calls w1
     = calls w0
       ++ match dc, county with
          | Some _, Some _ => [Called "add_choropleth_map" (figure w0)]
          | _, _ => []
          end.
Proof.
  destruct dc as [d|], county as [c|];
    try (unfold ret; intros [= <-]; repeat split; now rewrite app_nil_r).
  unfold with_frame.
  destruct (add_choropleth_map c "zipcode" "house_quality" choropleth_legend
              (frames w0 d, figure w0)) as [[e | []] [df' fig']] eqn:E;
    [discriminate|].
  intros [= <-].
  destruct (add_choropleth_map_returns _ _ _ _ _ _ _ _ E)
    as (hover & t & _ & -> & _ & K).
  cbn [figure shown calls frames]. unfold add_trace. cbn [data layout].
  repeat split. rewrite map_app. cbn [map]. now rewrite K.
Qed.

Lemma schools_step_returns (ds : option nat) (w0 w1 : World) :
  match ds with
  | Some d =>
      with_frame "add_schools_layer" d
        (add_schools_layer "LAT_CEN" "LONG_CEN" "ABB_NAME" "FEATUREDES"
                           schools_legend)
  | None => ret tt
  end w0 = (inr tt, w1) ->
  shown w1 = shown w0
  /\ layout (figure w1) = layout (figure w0)
  /\ map layer_kind (data (figure w1))
     = map layer_kind (data (figure w0))
       ++ match ds with
          | Some _ => [(false, schools_legend)]
          | None => []
          end
  /\ calls w1
     = calls w0
       ++ match ds with
          | Some _ => [Called "add_schools_layer" (figure w0)]
          | None => []
          end.
Proof.
  destruct ds as [d|];
    try (unfold ret; intros [= <-]; repeat split; now rewrite app_nil_r).
  unfold with_frame.
  destruct (add_schools_layer "LAT_CEN" "LONG_CEN" "ABB_NAME" "FEATUREDES"
              schools_legend (frames w0 d, figure w0))
    as [[e | []] [df' fig']] eqn:E; [discriminate|].
  intros [= <-].
  destruct (add_schools_layer_returns _ _ _ _ _ _ _ _ _ E)
    as (hover & t & _ & -> & _ & K).
  cbn [figure shown calls frames]. unfold add_trace. cbn [data layout].
  repeat split. rewrite map_app. cbn [map]. now rewrite K.
Qed.

Lemma houses_step_returns (dh : option nat) (w0 w1 : World) :
  match dh with
  | Some d =>
      with_frame "plotting_houses" d
        (plotting_houses "price" "house_quality" "bedrooms" "lat" "long"
                         houses_legend)
  | None => ret tt
  end w0 = (inr tt, w1) ->
  shown w1 = shown w0
  /\ layout (figure w1) = layout (figure w0)
  /\ map layer_kind (data (figure w1))
     = map layer_kind (data (figure w0))
       ++ match dh with
          | Some _ => [(false, houses_legend)]
          | None => []
          end
  /\ calls w1
     = calls w0
       ++ match dh with
          | Some _ => [Called "plotting_houses" (figure w0)]
          | None => []
          end.
Proof.
  destruct dh as [d|];
    try (unfold ret; intros [= <-]; repeat split; now rewrite app_nil_r).
  unfold with_frame.
  destruct (plotting_houses "price" "house_quality" "bedrooms" "lat" "long"
              houses_legend (frames w0 d, figure w0))
    as [[e | []] [df' fig']] eqn:E; [discriminate|].
  intros [= <-].
  destruct (plotting_houses_returns _ _ _ _ _ _ _ _ _ _ E)
    as (hover & t & _ & -> & _ & K).
  cbn [figure shown calls frames]. unfold add_trace. cbn [data layout].
  repeat split. rewrite map_app. cbn [map]. now rewrite K.
Qed.

(** Whatever the datasets are: when the request returns, every builder
    that was called has returned with its one trace.  The figures [g1]
    to [g4] are the figure after the region, outline, school and house
    steps. *)
Lemma vizualize_findings_returns
    (dh ds dc : option nat) (parks county : option json)
    (save_png : option string) (lat lon : Q) (style : string) (w w' : World) :
  vizualize_findings dh ds dc parks county save_png lat lon style w
  = (inr tt, w') ->
  exists g1 g2 g3 g4,
    map layer_kind (data (figure w'))
    = match dc, county with
      | Some _, Some _ => [(true, choropleth_legend)]
      | _, _ => []
      end
      ++ match parks with Some _ => [(false, parks_legend)] | None => [] end
      ++ match ds with Some _ => [(false, schools_legend)] | None => [] end
      ++ match dh with Some _ => [(false, houses_legend)] | None => [] end
    /\ layout (figure w')
       = layout (update_map_layout lat lon style (layers_figure parks))
    /\ shown w'
       = shown w ++ Show (figure w')
           :: match save_png with
              | Some path => [WriteImage path (figure w')]
              | None => []
              end
    /\ calls w'
       = calls w
         ++ match dc, county with
            | Some _, Some _ => [Called "add_choropleth_map" new_figure]
            | _, _ => []
            end
         ++ match parks with
            | Some _ => [Called "add_park_outlines_layer" g1]
            | None => []
            end
         ++ match ds with
            | Some _ => [Called "add_schools_layer" g2]
            | None => []
            end
         ++ match dh with
            | Some _ => [Called "plotting_houses" g3]
            | None => []
            end
         ++ [Called "update_map_layout" g4]
    /\ map layer_kind (data g1)
       = match dc, county with
         | Some _, Some _ => [(true, choropleth_legend)]
         | _, _ => []
         end
    /\ map layer_kind (data g2)
       = map layer_kind (data g1)
         ++ match parks with Some _ => [(false, parks_legend)] | None => [] end
    /\ map layer_kind (data g3)
       = map layer_kind (data g2)
         ++ match ds with Some _ => [(false, schools_legend)] | None => [] end
    /\ data g4 = data (figure w')
    /\ figure w' = update_map_layout lat lon style g4.
Proof.
  intros E. unfold vizualize_findings in E.
  apply bind_returns in E. destruct E as ([] & w0 & E0 & E).
  unfold fresh_figure, modify in E0. injection E0 as <-.
  apply bind_returns in E. destruct E as ([] & w1 & E1 & E).
  apply bind_returns in E. destruct E as ([] & w2 & E2 & E).
  apply bind_returns in E. destruct E as ([] & w3 & E3 & E).
  apply bind_returns in E. destruct E as ([] & w4 & E4 & E).
  apply bind_returns in E. destruct E as ([] & w5 & E5 & E).
  apply bind_returns in E. destruct E as ([] & w6 & E6 & E).
  apply region_step_returns in E1. destruct E1 as (Sh1 & L1 & D1 & C1).
  apply schools_step_returns in E3. destruct E3 as (Sh3 & L3 & D3 & C3).
  apply houses_step_returns in E4. destruct E4 as (Sh4 & L4 & D4 & C4).
  simpl in Sh1, L1, D1, C1.
  assert (P2 : shown w2 = shown w1
               /\ layout (figure w2) = layout (layers_figure parks)
               /\ map layer_kind (data (figure w2))
                  = map layer_kind (data (figure w1))
                    ++ match parks with
                       | Some _ => [(false, parks_legend)]
                       | None => []
                       end
               /\ calls w2
                  = calls w1
                    ++ match parks with
                       | Some _ =>
                           [Called "add_park_outlines_layer" (figure w1)]
                       | None => []
                       end).
  { destruct parks as [p|]; unfold on_fig, modify, ret in E2;
      injection E2 as <-; simpl.
    - split; [reflexivity|]. split.
      + unfold update_layout_mapbox_layers. simpl. rewrite L1. reflexivity.
      + split; [now rewrite map_app | reflexivity].
    - split; [reflexivity|]. split; [exact L1|].
      split; now rewrite app_nil_r. }
  destruct P2 as (Sh2 & L2 & D2 & C2).
  unfold on_fig, modify in E5. injection E5 as <-.
  unfold fig_show in E6. cbn [figure shown frames calls] in E6.
  destruct (show_error (update_map_layout lat lon style (figure w4)));
    [discriminate|].
  injection E6 as <-.
  assert (P7 : figure w' = update_map_layout lat lon style (figure w4)
               /\ calls w' = log_call "update_map_layout" w4
               /\ shown w'
                  = shown w4
                    ++ Show (update_map_layout lat lon style (figure w4))
                       :: match save_png with
                          | Some path =>
                              [WriteImage path
                                 (update_map_layout lat lon style (figure w4))]
                          | None => []
                          end).
  { destruct save_png as [path|].
    - unfold fig_write_image in E. cbn [figure shown frames calls] in E.
      destruct (write_image_error path
                  (update_map_layout lat lon style (figure w4)));
        [discriminate|].
      injection E as <-. cbn [figure shown calls].
      repeat split. now rewrite <- app_assoc.
    - unfold ret in E. injection E as <-. repeat split. }
  destruct P7 as (F7 & C7 & Sh7).
  exists (figure w1), (figure w2), (figure w3), (figure w4).
  rewrite F7.
  split; [|split; [|split; [|split; [|split; [|split; [|split; [|split]]]]]]].
  - simpl. rewrite D4, D3, D2, D1. simpl. now rewrite <- !app_assoc.
  - simpl. rewrite L4, L3, L2. reflexivity.
  - rewrite Sh7, Sh4, Sh3, Sh2, Sh1. reflexivity.
  - rewrite C7. unfold log_call. rewrite C4, C3, C2, C1. simpl.
    now rewrite <- !app_assoc.
  - exact D1.
  - exact D2.
  - exact D3.
  - reflexivity.
  - reflexivity.
Qed.

End Requests.

Section OrchestratorClaims.
Context `{Runtime} `{Renderer}.

(** C4: a request with every optional group supplied.  Whenever it
    returns, the traces of the figure are, in this order, the region (a
    Choroplethmapbox), the park outline's legend entry, the schools and
    the houses.  The functions were called in the order
    [add_choropleth_map] (on the empty figure),
    [add_park_outlines_layer] (on the figure with the region),
    [add_schools_layer] (region, outline), [plotting_houses] (region,
    outline, schools) and last [update_map_layout], on the figure that
    holds all four layers: the final figure is that figure with the
    finalizer's layout, applied to the layout that the layers left (the
    park overlay).  The figure is shown as it is at the end, and the
    export, when a path is given, comes after the display and writes the
    same figure.  And the request does return when the three datasets
    are valid and neither the display nor the export fails. *)
Theorem full_request_layer_order
    (dh ds dc : nat) (parks county : json) (save_png : option string)
    (lat lon : Q) (style : string) (w : World) :
  (valid_region (frames w dc) "zipcode" "house_quality" = true ->
   valid_schools (frames w ds) "LAT_CEN" "LONG_CEN" "ABB_NAME" "FEATUREDES"
   = true ->
   valid_houses (frames w dh) "price" "house_quality" "bedrooms" "lat" "long"
   = true ->
   (forall fig, show_error fig = None) ->
   (forall path fig, write_image_error path fig = None) ->
   exists w',
     vizualize_findings (Some dh) (Some ds) (Some dc) (Some parks)
                        (Some county) save_png lat lon style w
     = (inr tt, w'))
  /\ forall w',
       vizualize_findings (Some dh) (Some ds) (Some dc) (Some parks)
                          (Some county) save_png lat lon style w
       = (inr tt, w') ->
       exists g1 g2 g3 g4,
         map layer_kind (data (figure w'))
         = [(true, choropleth_legend); (false, parks_legend);
            (false, schools_legend); (false, houses_legend)]
         /\ calls w'
            = calls w
              ++ [Called "add_choropleth_map" new_figure;
                  Called "add_park_outlines_layer" g1;
                  Called "add_schools_layer" g2;
                  Called "plotting_houses" g3;
                  Called "update_map_layout" g4]
         /\ map layer_kind (data g1) = [(true, choropleth_legend)]
         /\ map layer_kind (data g2)
            = [(true, choropleth_legend); (false, parks_legend)]
         /\ map layer_kind (data g3)
            = [(true, choropleth_legend); (false, parks_legend);
               (false, schools_legend)]
         /\ map layer_kind (data g4)
            = [(true, choropleth_legend); (false, parks_legend);
               (false, schools_legend); (false, houses_legend)]
         /\ figure w' = update_map_layout lat lon style g4
         /\ layout (figure w')
            = layout (update_map_layout lat lon style
                        (add_park_outlines_layer parks parks_legend
                           new_figure))
         /\ shown w'
            = shown w ++ Show (figure w')
                :: match save_png with
                   | Some path => [WriteImage path (figure w')]
                   | None => []
                   end.
Proof.
  split.
  - intros Hr Hs Hh Hshow Hwrite.
    destruct (vizualize_findings_ok (Some dh) (Some ds) (Some dc)
                (Some parks) (Some county) save_png lat lon style w)
      as (w' & _ & _ & _ & _ & Erun & _); try assumption.
    + intros d c [= <-] _. exact Hr.
    + intros d [= <-]. exact Hs.
    + intros d [= <-]. exact Hh.
    + now exists w'.
  - intros w' Erun.
    destruct (vizualize_findings_returns _ _ _ _ _ _ _ _ _ _ _ Erun)
      as (g1 & g2 & g3 & g4 & D & L & Sh & C & K1 & K2 & K3 & D4 & F).
    exists g1, g2, g3, g4. rewrite D4. rewrite K2, K1 in K3.
    rewrite K1 in K2.
    repeat split; assumption.
Qed.

(** C9: when exactly one of the region dataset and the region geometry
    is given, the request runs as the request without either of them:
    same result, same final datasets, figure, calls and display.  No
    Choroplethmapbox is among the traces.  The request returns when the
    other datasets supplied are valid and the display and the export do
    not fail; and whenever it returns, the figure holds the parks,
    schools and houses layers that were supplied, with the finalized
    layout, and the display and the export have taken place. *)
Theorem region_needs_dataset_and_geometry
    (dh ds dc : option nat) (parks county : option json)
    (save_png : option string) (lat lon : Q) (style : string) (w : World) :
  (dc = None /\ county <> None) \/ (dc <> None /\ county = None) ->
  let out :=
    vizualize_findings dh ds dc parks county save_png lat lon style w in
  out = vizualize_findings dh ds None parks None save_png lat lon style w
  /\ Forall (fun t => is_choropleth t = false) (data (figure (snd out)))
  /\ ((forall d, ds = Some d ->
         valid_schools (frames w d) "LAT_CEN" "LONG_CEN" "ABB_NAME"
                       "FEATUREDES" = true) ->
      (forall d, dh = Some d ->
         valid_houses (frames w d) "price" "house_quality" "bedrooms" "lat"
                      "long" = true) ->
      (forall fig, show_error fig = None) ->
      (forall path fig, write_image_error path fig = None) ->
      fst out = inr tt)
  /\ (fst out = inr tt ->
      map layer_kind (data (figure (snd out)))
      = match parks with Some _ => [(false, parks_legend)] | None => [] end
        ++ match ds with Some _ => [(false, schools_legend)] | None => [] end
        ++ match dh with Some _ => [(false, houses_legend)] | None => [] end
      /\ layout (figure (snd out))
         = layout (update_map_layout lat lon style (layers_figure parks))
      /\ shown (snd out)
         = shown w ++ Show (figure (snd out))
             :: match save_png with
                | Some path => [WriteImage path (figure (snd out))]
                | None => []
                end).
Proof.
  intros Hone out.
  assert (Eout : out = vizualize_findings dh ds None parks None save_png
                         lat lon style w).
  { subst out. destruct Hone as [[-> _] | [_ ->]]; [|destruct dc];
      reflexivity. }
  split; [exact Eout|]. rewrite Eout. clear Eout out Hone.
  split; [|split].
  - unfold vizualize_findings. unfold bind at 1.
    unfold fresh_figure at 1, modify at 1.
    set (w0 := mkWorld (frames w) new_figure (shown w) (calls w)).
    set (rest := bind _ _).
    assert (Hrest : adds_only_scatter figure rest).
    { subst rest.
      apply scatter_bind; [apply scatter_ret | intros _].
      apply scatter_bind; [|intros _].
      { destruct parks; [|apply scatter_ret].
        apply scatter_on_fig. intros f. apply extends_park. }
      apply scatter_bind; [|intros _].
      { destruct ds; [|apply scatter_ret].
        apply scatter_with_frame, add_schools_layer_scatter_only. }
      apply scatter_bind; [|intros _].
      { destruct dh; [|apply scatter_ret].
        apply scatter_with_frame, plotting_houses_scatter_only. }
      apply scatter_bind; [|intros _].
      { apply scatter_on_fig. intros f. apply extends_update_map_layout. }
      apply scatter_bind; [apply scatter_show | intros _].
      destruct save_png; [apply scatter_write_image | apply scatter_ret]. }
    destruct (Hrest w0) as (ts & D & F). simpl in D. now rewrite D.
  - intros Hs Hh Hshow Hwrite.
    destruct (vizualize_findings_ok dh ds None parks None save_png lat lon
                style w)
      as (w' & g1 & g2 & g3 & g4 & Erun & _);
      [discriminate | exact Hs | exact Hh | exact Hshow | exact Hwrite |].
    now rewrite Erun.
  - destruct (vizualize_findings dh ds None parks None save_png lat lon
                style w) as [[e | []] w'] eqn:Erun; [discriminate|].
    intros _.
    destruct (vizualize_findings_returns _ _ _ _ _ _ _ _ _ _ _ Erun)
      as (g1 & g2 & g3 & g4 & D & L & Sh & _).
    simpl. repeat split; assumption.
Qed.

End OrchestratorClaims.

Lemma full_request_layer_order_witness :
  exists w' g1 g2 g3 g4,
    @vizualize_findings sample_runtime sample_renderer (Some 0) (Some 1)
      (Some 2) (Some sample_parks) (Some sample_counties) (Some "map.png")
      (473464 # 10000) (-1219861 # 10000) "open-street-map" sample_world
    = (inr tt, w')
    /\ map layer_kind (data (figure w'))
       = [(true, choropleth_legend); (false, parks_legend);
          (false, schools_legend); (false, houses_legend)]
    /\ calls w'
       = calls sample_world
         ++ [Called "add_choropleth_map" new_figure;
             Called "add_park_outlines_layer" g1;
             Called "add_schools_layer" g2;
             Called "plotting_houses" g3;
             Called "update_map_layout" g4]
    /\ map layer_kind (data g4)
       = [(true, choropleth_legend); (false, parks_legend);
          (false, schools_legend); (false, houses_legend)]
    /\ shown w'
       = shown sample_world ++ [Show (figure w'); WriteImage "map.png" (figure w')].
Proof.
  destruct (@full_request_layer_order sample_runtime sample_renderer 0 1 2
              sample_parks sample_counties (Some "map.png") (473464 # 10000)
              (-1219861 # 10000) "open-street-map" sample_world)
    as [Hruns Horder].
  destruct Hruns as [w' Erun]; try reflexivity.
  destruct (Horder w' Erun)
    as (g1 & g2 & g3 & g4 & D & C & _ & _ & _ & D4 & _ & _ & Sh).
  exists w', g1, g2, g3, g4. repeat split; assumption.
Defined.

Lemma region_needs_dataset_and_geometry_witness :
  @vizualize_findings sample_runtime sample_renderer (Some 0) None (Some 2)
    None None None (473464 # 10000) (-1219861 # 10000) "open-street-map"
    sample_world
  = @vizualize_findings sample_runtime sample_renderer (Some 0) None None
      None None None (473464 # 10000) (-1219861 # 10000) "open-street-map"
      sample_world.
Proof.
  apply (@region_needs_dataset_and_geometry sample_runtime sample_renderer
           (Some 0) None (Some 2) None None None (473464 # 10000)
           (-1219861 # 10000) "open-street-map" sample_world).
  right. split; [discriminate | reflexivity].
Defined.

(** * Further properties of the code *)

(** ** Validation and failure of the builders *)

(** The validation loop raises on the first required column that is
    absent. *)
Lemma ensure_columns_first_missing (pre post : list string) (c : string)
    (df : DataFrame) (fig : Figure) :
  (forall c', In c' pre -> has_column df c' = true) ->
  has_column df c = false ->
  ensure_columns (pre ++ c :: post) (df, fig)
  = (inl (ValueError ("Missing required column: " +:+ c)), (df, fig)).
Proof.
  induction pre as [|c0 pre IH]; intros Hpre Hc.
  - unfold ensure_columns. simpl. unfold bind at 1. unfold bind at 1.
    unfold df_has at 1. simpl. rewrite Hc. reflexivity.
  - unfold ensure_columns in *. simpl. unfold bind at 1. unfold bind at 1.
    unfold df_has at 1. simpl. rewrite (Hpre c0 (or_introl eq_refl)). simpl.
    apply IH; [|exact Hc]. intros c' Hc'. apply Hpre. now right.
Qed.

Section BuilderFailures.
Context `{Runtime}.

(** X1: [plotting_houses] on a dataset without one of its five columns
    raises [ValueError('Missing required column: c')] for the first
    absent column [c] in the order price, quality, bedrooms, latitude,
    longitude, and leaves the dataset and the figure as they were. *)
Theorem plotting_houses_reports_first_missing (df : DataFrame) (fig : Figure)
    (p q b la lo legend : string) (pre post : list string) (c : string) :
  [p; q; b; la; lo] = pre ++ c :: post ->
  (forall c', In c' pre -> has_column df c' = true) ->
  has_column df c = false ->
  plotting_houses p q b la lo legend (df, fig)
  = (inl (ValueError ("Missing required column: " +:+ c)), (df, fig)).
Proof.
  intros Ereq Hpre Hc. unfold plotting_houses. cbv zeta. rewrite Ereq.
  apply bind_raise. now apply ensure_columns_first_missing.
Qed.

(** X2: [add_choropleth_map] on a dataset without its zipcode or quality
    column raises [ValueError('Missing required column: c')] for the first
    absent one, and leaves the dataset and the figure as they were. *)
Theorem add_choropleth_map_reports_first_missing (df : DataFrame)
    (fig : Figure) (counties : json) (zc hq legend : string)
    (pre post : list string) (c : string) :
  [zc; hq] = pre ++ c :: post ->
  (forall c', In c' pre -> has_column df c' = true) ->
  has_column df c = false ->
  add_choropleth_map counties zc hq legend (df, fig)
  = (inl (ValueError ("Missing required column: " +:+ c)), (df, fig)).
Proof.
  intros Ereq Hpre Hc. unfold add_choropleth_map. cbv zeta. rewrite Ereq.
  apply bind_raise. now apply ensure_columns_first_missing.
Qed.

(** X3: how [add_schools_layer] fails.  Without the name column, or with
    it and without the description column, the column lookup raises
    [KeyError] and nothing has changed; a description column that does not
    hold strings raises [AttributeError], nothing changed.  Once the text
    is built, an absent latitude column (not named ['hover_text']), or
    then an absent longitude column, raises [KeyError] with
    ['hover_text'] already written to the dataset; the figure is as it
    was in every case. *)
Theorem add_schools_layer_failures (df : DataFrame) (fig : Figure)
    (la lo nm ds legend : string) :
  (df !! nm = None ->
   add_schools_layer la lo nm ds legend (df, fig)
   = (inl (KeyError nm), (df, fig)))
  /\ (has_column df nm = true -> df !! ds = None ->
      add_schools_layer la lo nm ds legend (df, fig)
      = (inl (KeyError ds), (df, fig)))
  /\ (forall c, has_column df nm = true -> df !! ds = Some c ->
      is_numeric c = true ->
      add_schools_layer la lo nm ds legend (df, fig)
      = (inl (AttributeError "Can only use .str accessor with string values!"),
         (df, fig)))
  /\ (forall descs, has_column df nm = true -> df !! ds = Some (StrCol descs) ->
      la <> "hover_text" -> df !! la = None ->
      exists hover,
        add_schools_layer la lo nm ds legend (df, fig)
        = (inl (KeyError la), (<["hover_text" := StrCol hover]> df, fig)))
  /\ (forall descs, has_column df nm = true -> df !! ds = Some (StrCol descs) ->
      has_column df la = true \/ la = "hover_text" ->
      lo <> "hover_text" -> df !! lo = None ->
      exists hover,
        add_schools_layer la lo nm ds legend (df, fig)
        = (inl (KeyError lo), (<["hover_text" := StrCol hover]> df, fig))).
Proof.
  repeat split.
  - intros En. unfold add_schools_layer. run_step. now rewrite En.
  - intros Hn Ed. destruct (has_column_true _ _ Hn) as [cn En].
    unfold add_schools_layer. run_step. rewrite En; simpl. now rewrite Ed.
  - intros c Hn Ed Hc. destruct (has_column_true _ _ Hn) as [cn En].
    unfold add_schools_layer. run_step. rewrite En; simpl. rewrite Ed; simpl.
    destruct c; [reflexivity | reflexivity | discriminate].
  - intros descs Hn Ed Hla Ela. destruct (has_column_true _ _ Hn) as [cn En].
    unfold add_schools_layer. run_step. rewrite En; simpl. rewrite Ed; simpl.
    rewrite lookup_insert_ne by congruence. rewrite Ela. eauto.
  - intros descs Hn Ed Hla Hlo Elo.
    destruct (has_column_true _ _ Hn) as [cn En].
    unfold add_schools_layer. run_step. rewrite En; simpl. rewrite Ed; simpl.
    set (hover := str_add _ _).
    assert (Ela : exists lat,
               <["hover_text" := StrCol hover]> df !! la = Some lat).
    { destruct Hla as [Hla | ->].
      - now apply lookup_after_hover.
      - rewrite lookup_insert_eq. eauto. }
    destruct Ela as [lat Ela]. rewrite Ela; simpl.
    rewrite lookup_insert_ne by congruence. rewrite Elo. eauto.
Qed.

End BuilderFailures.

Lemma plotting_houses_reports_first_missing_witness :
  @plotting_houses sample_runtime "price" "house_quality" "bedrooms" "lat"
    "long" houses_legend (delete "bedrooms" three_houses, new_figure)
  = (inl (ValueError "Missing required column: bedrooms"),
     (delete "bedrooms" three_houses, new_figure)).
Proof.
  apply (@plotting_houses_reports_first_missing sample_runtime
           (delete "bedrooms" three_houses) new_figure
           "price" "house_quality" "bedrooms" "lat" "long" houses_legend
           ["price"; "house_quality"] ["lat"; "long"] "bedrooms");
    [reflexivity | intros c' [<- | [<- | []]]; reflexivity | reflexivity].
Defined.

Lemma add_choropleth_map_reports_first_missing_witness :
  @add_choropleth_map sample_runtime sample_counties "zipcode" "house_quality"
    choropleth_legend (delete "zipcode" two_zipcodes, new_figure)
  = (inl (ValueError "Missing required column: zipcode"),
     (delete "zipcode" two_zipcodes, new_figure)).
Proof.
  apply (@add_choropleth_map_reports_first_missing sample_runtime
           (delete "zipcode" two_zipcodes) new_figure sample_counties
           "zipcode" "house_quality" choropleth_legend
           [] ["house_quality"] "zipcode");
    [reflexivity | intros c' [] | reflexivity].
Defined.

Lemma add_schools_layer_failures_witness :
  exists hover,
    @add_schools_layer sample_runtime "LAT_CEN" "LONG_CEN" "ABB_NAME"
      "FEATUREDES" schools_legend (schools_without_latitude, new_figure)
    = (inl (KeyError "LAT_CEN"),
       (<["hover_text" := StrCol hover]> schools_without_latitude,
        new_figure)).
Proof.
  destruct (@add_schools_layer_failures sample_runtime
              schools_without_latitude new_figure "LAT_CEN" "LONG_CEN"
              "ABB_NAME" "FEATUREDES" schools_legend)
    as (_ & _ & _ & Hlat & _).
  apply (Hlat ["School-Elementary"; "School-High"]);
    [reflexivity | reflexivity | discriminate | reflexivity].
Defined.

(** ** What a builder does to the figure and to the dataset, whatever it
    is given *)

Lemma keeps_figure_bind {A B} (m : M objects A) (k : A -> M objects B) :
  keeps_figure m -> (forall a, keeps_figure (k a)) -> keeps_figure (bind m k).
Proof.
  intros Hm Hk s. unfold bind. specialize (Hm s).
  destruct (m s) as [[e | a] s']; simpl in *; [exact Hm|].
  now rewrite Hk.
Qed.

Lemma keeps_figure_ret {A} (a : A) : keeps_figure (ret a).
Proof. intros s. reflexivity. Qed.

Lemma keeps_figure_raise {A} (e : exn) : keeps_figure (@raise objects A e).
Proof. intros s. reflexivity. Qed.

Lemma keeps_figure_lift {A} (r : exn + A) : keeps_figure (lift r).
Proof. destruct r; intros s; reflexivity. Qed.

Lemma keeps_figure_get (col : string) : keeps_figure (df_get col).
Proof. intros s. reflexivity. Qed.

Lemma keeps_figure_has (col : string) : keeps_figure (df_has col).
Proof. intros s. reflexivity. Qed.

Lemma keeps_figure_set (col : string) (c : column) :
  keeps_figure (df_set col c).
Proof. intros s. reflexivity. Qed.

Lemma keeps_figure_ensure (req : list string) :
  keeps_figure (ensure_columns req).
Proof.
  unfold ensure_columns. induction req as [|c req IH]; simpl.
  - apply keeps_figure_ret.
  - apply keeps_figure_bind; [|intros _; exact IH].
    apply keeps_figure_bind; [apply keeps_figure_has|].
    intros present. destruct (negb present);
      [apply keeps_figure_raise | apply keeps_figure_ret].
Qed.

Lemma figure_atomic_bind {A} (m : M objects A) (k : A -> M objects unit) :
  keeps_figure m -> (forall a, figure_atomic (k a)) ->
  figure_atomic (bind m k).
Proof.
  intros Hm Hk s. unfold bind. specialize (Hm s).
  destruct (m s) as [[e | a] s'] eqn:E; simpl in *; [exact Hm|].
  specialize (Hk a s'). destruct (k a s') as [[e | []] s''];
    now rewrite <- Hm.
Qed.

Lemma figure_atomic_add (t : Trace) : figure_atomic (fig_add_trace t).
Proof. intros s. simpl. eauto. Qed.

Ltac atomic_steps :=
  repeat first
    [ apply figure_atomic_add
    | apply figure_atomic_bind;
      [first [ apply keeps_figure_ensure | apply keeps_figure_get
             | apply keeps_figure_set | apply keeps_figure_lift ]
      | intros ? ] ].

Lemma same_columns_refl (df : DataFrame) : same_columns df df.
Proof. intros col _. reflexivity. Qed.

Lemma same_columns_trans (d1 d2 d3 : DataFrame) :
  same_columns d1 d2 -> same_columns d2 d3 -> same_columns d1 d3.
Proof. intros H12 H23 col Hc. rewrite H23, H12; auto. Qed.

Lemma hover_bind {A B} (m : M objects A) (k : A -> M objects B) :
  writes_only_hover m -> (forall a, writes_only_hover (k a)) ->
  writes_only_hover (bind m k).
Proof.
  intros Hm Hk s. unfold bind. specialize (Hm s).
  destruct (m s) as [[e | a] s']; simpl in *; [exact Hm|].
  eapply same_columns_trans; [exact Hm | apply Hk].
Qed.

Lemma hover_ret {A} (a : A) : writes_only_hover (ret a).
Proof. intros s. apply same_columns_refl. Qed.

Lemma hover_raise {A} (e : exn) : writes_only_hover (@raise objects A e).
Proof. intros s. apply same_columns_refl. Qed.

Lemma hover_lift {A} (r : exn + A) : writes_only_hover (lift r).
Proof. destruct r; intros s; apply same_columns_refl. Qed.

Lemma hover_get (col : string) : writes_only_hover (df_get col).
Proof. intros s. apply same_columns_refl. Qed.

Lemma hover_has (col : string) : writes_only_hover (df_has col).
Proof. intros s. apply same_columns_refl. Qed.

Lemma hover_add (t : Trace) : writes_only_hover (fig_add_trace t).
Proof. intros s. apply same_columns_refl. Qed.

Lemma hover_set (c : column) : writes_only_hover (df_set "hover_text" c).
Proof.
  intros s col Hc. simpl. unfold setitem.
  apply lookup_insert_ne. congruence.
Qed.

Lemma hover_ensure (req : list string) :
  writes_only_hover (ensure_columns req).
Proof.
  unfold ensure_columns. induction req as [|c req IH]; simpl.
  - apply hover_ret.
  - apply hover_bind; [|intros _; exact IH].
    apply hover_bind; [apply hover_has|].
    intros present. destruct (negb present);
      [apply hover_raise | apply hover_ret].
Qed.

Ltac hover_steps :=
  repeat first
    [ apply hover_ensure | apply hover_get | apply hover_set
    | apply hover_lift | apply hover_add | apply hover_ret
    | apply hover_bind; [|intros ?] ].

Section BuilderFrames.
Context `{Runtime}.

Lemma plotting_houses_writes_only_hover (p q b la lo legend : string) :
  writes_only_hover (plotting_houses p q b la lo legend).
Proof. unfold plotting_houses. cbv zeta. hover_steps. Qed.

Lemma add_schools_layer_writes_only_hover (la lo nm ds legend : string) :
  writes_only_hover (add_schools_layer la lo nm ds legend).
Proof. unfold add_schools_layer. hover_steps. Qed.

Lemma add_choropleth_map_writes_only_hover (counties : json)
    (zc hq legend : string) :
  writes_only_hover (add_choropleth_map counties zc hq legend).
Proof. unfold add_choropleth_map. cbv zeta. hover_steps. Qed.

(** X4: whatever dataset and column names they are given, the three
    builders that take a dataset leave the figure exactly as it was when
    they raise, and when they return the figure is the old one with one
    trace appended: the trace is added last, after everything that can
    fail. *)
Theorem builders_change_figure_only_on_return (df : DataFrame) (fig : Figure) :
  (forall p q b la lo legend,
      match plotting_houses p q b la lo legend (df, fig) with
      | (inl _, (_, fig')) => fig' = fig
      | (inr _, (_, fig')) => exists t, fig' = add_trace t fig
      end)
  /\ (forall la lo nm ds legend,
      match add_schools_layer la lo nm ds legend (df, fig) with
      | (inl _, (_, fig')) => fig' = fig
      | (inr _, (_, fig')) => exists t, fig' = add_trace t fig
      end)
  /\ (forall counties zc hq legend,
      match add_choropleth_map counties zc hq legend (df, fig) with
      | (inl _, (_, fig')) => fig' = fig
      | (inr _, (_, fig')) => exists t, fig' = add_trace t fig
      end).
Proof.
  split; [|split].
  - intros p q b la lo legend.
    assert (Ha : figure_atomic (plotting_houses p q b la lo legend))
      by (unfold plotting_houses; cbv zeta; atomic_steps).
    specialize (Ha (df, fig)).
    destruct (plotting_houses p q b la lo legend (df, fig))
      as [[e | u] [df' fig']]; exact Ha.
  - intros la lo nm ds legend.
    assert (Ha : figure_atomic (add_schools_layer la lo nm ds legend))
      by (unfold add_schools_layer; atomic_steps).
    specialize (Ha (df, fig)).
    destruct (add_schools_layer la lo nm ds legend (df, fig))
      as [[e | u] [df' fig']]; exact Ha.
  - intros counties zc hq legend.
    assert (Ha : figure_atomic (add_choropleth_map counties zc hq legend))
      by (unfold add_choropleth_map; cbv zeta; atomic_steps).
    specialize (Ha (df, fig)).
    destruct (add_choropleth_map counties zc hq legend (df, fig))
      as [[e | u] [df' fig']]; exact Ha.
Qed.

(** X5: whatever they are given and whether they return or raise, the
    three builders that take a dataset change no column of it other than
    ['hover_text']: every other column is there afterwards exactly when it
    was there before, with the same content. *)
Theorem builders_write_no_other_column (df : DataFrame) (fig : Figure)
    (col : string) :
  col <> "hover_text" ->
  (forall p q b la lo legend,
      fst (snd (plotting_houses p q b la lo legend (df, fig))) !! col
      = df !! col)
  /\ (forall la lo nm ds legend,
      fst (snd (add_schools_layer la lo nm ds legend (df, fig))) !! col
      = df !! col)
  /\ (forall counties zc hq legend,
      fst (snd (add_choropleth_map counties zc hq legend (df, fig))) !! col
      = df !! col).
Proof.
  intros Hc. split; [|split]; intros.
  - now apply (plotting_houses_writes_only_hover _ _ _ _ _ _ (df, fig)).
  - now apply (add_schools_layer_writes_only_hover _ _ _ _ _ (df, fig)).
  - now apply (add_choropleth_map_writes_only_hover _ _ _ _ (df, fig)).
Qed.

End BuilderFrames.

Lemma builders_write_no_other_column_witness :
  fst (snd (@plotting_houses sample_runtime "price" "house_quality" "bedrooms"
              "lat" "long" houses_legend (three_houses, new_figure)))
  !! "price"
  = three_houses !! "price".
Proof.
  apply (@builders_write_no_other_column sample_runtime three_houses
           new_figure "price").
  discriminate.
Defined.

(** ** The house layer on a valid dataset *)

Lemma length_str_add (xs ys : list string) :
  length (str_add xs ys) = Nat.min (length xs) (length ys).
Proof.
  revert ys. induction xs as [|x xs IH]; intros [|y ys]; simpl; auto.
Qed.

Lemma length_str_radd (lit : string) (xs : list string) :
  length (str_radd lit xs) = length xs.
Proof. apply length_map. Qed.

Lemma length_str_add_lit (xs : list string) (lit : string) :
  length (str_add_lit xs lit) = length xs.
Proof. apply length_map. Qed.

Lemma length_marker_sizes (c : column) (sizes : list fnum) :
  marker_sizes c = inr sizes -> length sizes = col_len c.
Proof.
  unfold marker_sizes. destruct c as [zs | ys | ss].
  - rewrite normalize_column_int. intros [= <-]. rewrite length_map.
    unfold CustFunc.normalize_column_int64.
    destruct zs as [|z zs]; [reflexivity|].
    cbn [int_series_min int_series_max]. apply length_map.
  - rewrite normalize_column_float. intros [= <-]. rewrite length_map.
    apply length_map.
  - discriminate.
Qed.

Section MarkerSizes.
Context `{Runtime}.
Local Open Scope Q_scope.


End MarkerSizes.


Section HouseLayer.
Context `{Runtime}.

Lemma length_astype_str (c : column) : length (astype_str c) = col_len c.
Proof. destruct c; simpl; try apply length_map; reflexivity. Qed.

Lemma length_astype_int (c : column) (zs : list Z) :
  is_numeric c = true -> astype_int c = inr zs -> length zs = col_len c.
Proof.
  destruct c; simpl; intros Hn E; try discriminate; injection E as <-;
    [reflexivity | apply length_map].
Qed.

(** X6: on a valid dataset (in particular: a price column with at least
    two distinct values) whose price, quality and bedrooms columns have
    [n] rows, [plotting_houses] writes ['hover_text'] with exactly [n]
    texts, the new trace carries the same [n] texts, and it has exactly
    [n] marker sizes: one text and one size per house. *)
Theorem plotting_houses_one_text_per_row (df : DataFrame) (fig : Figure)
    (p q b la lo legend : string) (n : nat) :
  valid_houses df p q b la lo = true ->
  (forall col c, In col [p; q; b] -> df !! col = Some c -> col_len c = n) ->
  exists df' t hover sizes,
    plotting_houses p q b la lo legend (df, fig)
    = (inr tt, (df', add_trace t fig))
    /\ df' !! "hover_text" = Some (StrCol hover)
    /\ trace_text t = Some (StrCol hover)
    /\ length hover = n
    /\ marker_sizes_of t = Some sizes
    /\ length sizes = n.
Proof.
  intros Hv Hrows.
  destruct (plotting_houses_valid df fig p q b la lo legend Hv)
    as (price & cq & cb & zs & sizes & lat & lon
        & Ep & Hnum & _ & Eq & Eb & Eint & Esz & _ & _ & Erun).
  rewrite Erun. eexists _, _, _, sizes.
  split; [reflexivity|]. split; [apply lookup_insert_eq|].
  split; [reflexivity|].
  assert (Lp : col_len price = n) by (apply (Hrows p); simpl; auto).
  assert (Lq : col_len cq = n) by (apply (Hrows q); simpl; auto).
  assert (Lb : col_len cb = n) by (apply (Hrows b); simpl; auto).
  split.
  - unfold houses_hover.
    rewrite length_str_add, length_str_add_lit, length_str_add,
      !length_str_add_lit, length_str_radd, length_map, !length_astype_str,
      (length_astype_int price zs Hnum Eint). lia.
  - split; [reflexivity|]. rewrite (length_marker_sizes _ _ Esz). exact Lp.
Qed.

(** X7: [plotting_houses] is not idempotent on the figure but is on the
    dataset.  On a valid dataset (in particular: a price column with at
    least two distinct values) whose quality and bedrooms columns are not
    ['hover_text'], a second call with the same arguments returns
    normally, appends a second trace equal to the first, and leaves the
    dataset as the first call left it. *)
Theorem plotting_houses_second_call (df : DataFrame) (fig : Figure)
    (p q b la lo legend : string) :
  valid_houses df p q b la lo = true ->
  q <> "hover_text" -> b <> "hover_text" ->
  exists df1 t,
    plotting_houses p q b la lo legend (df, fig)
    = (inr tt, (df1, add_trace t fig))
    /\ plotting_houses p q b la lo legend (df1, add_trace t fig)
       = (inr tt, (df1, add_trace t (add_trace t fig))).
Proof.
  intros Hv Hq Hb.
  destruct (plotting_houses_valid df fig p q b la lo legend Hv)
    as (price & cq & cb & zs & sizes & lat & lon
        & Ep & Hnum & Hok & Eq & Eb & Eint & Esz & Elat & Elon & Erun).
  set (df1 := <["hover_text" := StrCol (houses_hover zs cq cb)]> df) in *.
  assert (Hp : p <> "hover_text").
  { unfold valid_houses in Hv.
    repeat (apply andb_prop in Hv; destruct Hv as [Hv ?]).
    now apply negb_true_iff, String.eqb_neq in Hv. }
  assert (Hsame : forall col, col <> "hover_text" -> df1 !! col = df !! col).
  { intros col Hc. subst df1. apply lookup_insert_ne. congruence. }
  assert (Hv1 : valid_houses df1 p q b la lo = true).
  { unfold valid_houses in *.
    repeat (apply andb_prop in Hv; destruct Hv as [Hv ?]).
    rewrite Hv. rewrite (Hsame p Hp). unfold has_column at 1 2.
    rewrite (Hsame q Hq), (Hsame b Hb), Ep, Eq, Eb, Hnum, Hok.
    unfold has_column. rewrite Elat, Elon. reflexivity. }
  eexists df1, _. split; [exact Erun|].
  destruct (plotting_houses_valid df1
              (add_trace
                 (Scattermapbox
                    (mkScatter (Data lat) (Data lon) "markers"
                       (Some (mkMarker (SizeArray sizes) "blue" None None))
                       None (Some (StrCol (houses_hover zs cq cb)))
                       (Some "text") legend true))
                 fig)
              p q b la lo legend Hv1)
    as (price' & cq' & cb' & zs' & sizes' & lat' & lon'
        & Ep' & _ & _ & Eq' & Eb' & Eint' & Esz' & Elat' & Elon' & Erun').
  rewrite Hsame in Ep', Eq', Eb' by assumption.
  rewrite Ep in Ep'. injection Ep' as <-.
  rewrite Eq in Eq'. injection Eq' as <-.
  rewrite Eb in Eb'. injection Eb' as <-.
  rewrite Eint in Eint'. injection Eint' as <-.
  rewrite Esz in Esz'. injection Esz' as <-.
  assert (Edf : <["hover_text" := StrCol (houses_hover zs cq cb)]> df1 = df1)
    by (subst df1; apply insert_insert_eq).
  rewrite Edf in Elat', Elon', Erun'.
  rewrite Elat in Elat'. injection Elat' as <-.
  rewrite Elon in Elon'. injection Elon' as <-.
  exact Erun'.
Qed.

End HouseLayer.

Lemma plotting_houses_one_text_per_row_witness :
  exists df' t hover sizes,
    @plotting_houses sample_runtime "price" "house_quality" "bedrooms" "lat"
      "long" houses_legend (three_houses, new_figure)
    = (inr tt, (df', add_trace t new_figure))
    /\ df' !! "hover_text" = Some (StrCol hover)
    /\ trace_text t = Some (StrCol hover)
    /\ length hover = 3
    /\ marker_sizes_of t = Some sizes
    /\ length sizes = 3.
Proof.
  apply (@plotting_houses_one_text_per_row sample_runtime three_houses
           new_figure "price" "house_quality" "bedrooms" "lat" "long"
           houses_legend 3);
    [reflexivity|].
  intros col c [<- | [<- | [<- | []]]] E; vm_compute in E;
    injection E as <-; reflexivity.
Defined.

Lemma plotting_houses_second_call_witness :
  exists df1 t,
    @plotting_houses sample_runtime "price" "house_quality" "bedrooms" "lat"
      "long" houses_legend (three_houses, new_figure)
    = (inr tt, (df1, add_trace t new_figure))
    /\ @plotting_houses sample_runtime "price" "house_quality" "bedrooms"
         "lat" "long" houses_legend (df1, add_trace t new_figure)
       = (inr tt, (df1, add_trace t (add_trace t new_figure))).
Proof.
  apply (@plotting_houses_second_call sample_runtime three_houses new_figure
           "price" "house_quality" "bedrooms" "lat" "long" houses_legend);
    [reflexivity | discriminate | discriminate].
Defined.

(** ** Requests, whatever they are given *)

Lemma keeps_shown_ret {A} (a : A) : keeps_shown (@ret World A a).
Proof. intros w. reflexivity. Qed.

Lemma keeps_shown_fresh : keeps_shown fresh_figure.
Proof. intros w. reflexivity. Qed.

Lemma keeps_shown_on_fig (function : string) (f : Figure -> Figure) :
  keeps_shown (on_fig function f).
Proof. intros w. reflexivity. Qed.

Lemma keeps_shown_with_frame (function : string) (r : nat)
    (m : M objects unit) :
  keeps_shown (with_frame function r m).
Proof.
  intros w. unfold with_frame.
  destruct (m (frames w r, figure w)) as [res [df' fig']]. reflexivity.
Qed.

Lemma same_inputs_trans (fs1 fs2 fs3 : nat -> DataFrame) :
  same_inputs fs1 fs2 -> same_inputs fs2 fs3 -> same_inputs fs1 fs3.
Proof. intros H12 H23 r col Hc. rewrite H23, H12; auto. Qed.

Lemma only_hover_refl (refs : list nat) (fs : nat -> DataFrame) :
  only_hover_of refs fs fs.
Proof. split; [apply same_inputs_refl | reflexivity]. Qed.

Lemma only_hover_trans (refs : list nat) (fs1 fs2 fs3 : nat -> DataFrame) :
  only_hover_of refs fs1 fs2 -> only_hover_of refs fs2 fs3 ->
  only_hover_of refs fs1 fs3.
Proof.
  intros [S12 U12] [S23 U23]. split.
  - eapply same_inputs_trans; eassumption.
  - intros r Hr. rewrite U23, U12; auto.
Qed.

Lemma store_bind {A B} (refs : list nat) (m : M World A) (k : A -> M World B) :
  store_step refs m -> (forall a, store_step refs (k a)) ->
  store_step refs (bind m k).
Proof.
  intros Hm Hk w. unfold bind. specialize (Hm w).
  destruct (m w) as [[e | a] w1]; simpl in *; [exact Hm|].
  eapply only_hover_trans; [exact Hm | apply Hk].
Qed.

Lemma store_ret {A} (refs : list nat) (a : A) :
  store_step refs (@ret World A a).
Proof. intros w. apply only_hover_refl. Qed.

Lemma store_on_fig (refs : list nat) (function : string)
    (f : Figure -> Figure) :
  store_step refs (on_fig function f).
Proof. intros w. apply only_hover_refl. Qed.

Lemma store_fresh (refs : list nat) : store_step refs fresh_figure.
Proof. intros w. apply only_hover_refl. Qed.

Lemma store_with_frame (refs : list nat) (function : string) (r : nat)
    (m : M objects unit) :
  In r refs -> writes_only_hover m ->
  store_step refs (with_frame function r m).
Proof.
  intros Hin Hm w. unfold with_frame.
  specialize (Hm (frames w r, figure w)).
  destruct (m (frames w r, figure w)) as [res [df' fig']]. simpl in *.
  split.
  - intros r' col Hc. unfold store_frame.
    destruct (Nat.eqb_spec r' r) as [-> | Hne]; [now apply Hm | reflexivity].
  - intros r' Hr'. unfold store_frame.
    destruct (Nat.eqb_spec r' r) as [-> | Hne]; [contradiction | reflexivity].
Qed.

Section AnyRequest.
Context `{Runtime} `{Renderer}.

Lemma store_show (refs : list nat) : store_step refs fig_show.
Proof.
  intros w. unfold fig_show. destruct (show_error (figure w));
    apply only_hover_refl.
Qed.

Lemma store_write_image (refs : list nat) (path : string) :
  store_step refs (fig_write_image path).
Proof.
  intros w. unfold fig_write_image.
  destruct (write_image_error path (figure w)); apply only_hover_refl.
Qed.

Lemma shows_bind {A} (save_png : option string) (m : M World A)
    (k : A -> M World unit) :
  keeps_shown m -> (forall a, shows_then_exports save_png (k a)) ->
  shows_then_exports save_png (bind m k).
Proof.
  intros Hm Hk w. unfold bind. specialize (Hm w).
  destruct (m w) as [[e | a] w1]; simpl in *; [now left|].
  specialize (Hk a w1). destruct (k a w1) as [[e | []] w2];
    now rewrite <- Hm.
Qed.

Lemma shows_tail (save_png : option string) (lat lon : Q) (style : string) :
  shows_then_exports save_png
    (on_fig "update_map_layout" (update_map_layout lat lon style) ;;;
     fig_show ;;;
     match save_png with
     | Some path => fig_write_image path
     | None => ret tt
     end).
Proof.
  intros w. unfold bind at 1. unfold on_fig at 1, modify at 1.
  unfold bind at 1. unfold fig_show at 1. cbn [figure shown frames calls].
  destruct (show_error (update_map_layout lat lon style (figure w)));
    [now left|].
  destruct save_png as [path|]; [|reflexivity].
  unfold fig_write_image. cbn [figure shown frames calls].
  destruct (write_image_error path
              (update_map_layout lat lon style (figure w))) eqn:Ew.
  - right. exists path. cbn [figure shown]. repeat split. exact Ew.
  - cbn [figure shown]. now rewrite <- app_assoc.
Qed.

(** X9: what a request has displayed and exported when it is over, for
    every combination of arguments and datasets.  A request that returns
    has displayed its final figure exactly once and, when a path was
    given, exported that same figure right after, and nothing else.  A
    request that raises has displayed and exported nothing, with one
    exception: when it is [fig.write_image] that raises, the final figure
    has already been displayed (and nothing is exported). *)
Theorem request_display_and_export
    (dh ds dc : option nat) (parks county : option json)
    (save_png : option string) (lat lon : Q) (style : string) (w : World) :
  match vizualize_findings dh ds dc parks county save_png lat lon style w with
  | (inl e, w') =>
      shown w' = shown w
      \/ exists path,
           save_png = Some path
           /\ write_image_error path (figure w') = Some e
           /\ shown w' = shown w ++ [Show (figure w')]
  | (inr _, w') =>
      shown w'
      = shown w ++ Show (figure w')
          :: match save_png with
             | Some path => [WriteImage path (figure w')]
             | None => []
             end
  end.
Proof.
  revert w. change (shows_then_exports save_png
    (vizualize_findings dh ds dc parks county save_png lat lon style)).
  unfold vizualize_findings.
  apply shows_bind; [apply keeps_shown_fresh | intros _].
  apply shows_bind; [|intros _].
  { destruct dc, county;
      first [apply keeps_shown_with_frame | apply keeps_shown_ret]. }
  apply shows_bind; [|intros _].
  { destruct parks; [apply keeps_shown_on_fig | apply keeps_shown_ret]. }
  apply shows_bind; [|intros _].
  { destruct ds; [apply keeps_shown_with_frame | apply keeps_shown_ret]. }
  apply shows_bind; [|intros _].
  { destruct dh; [apply keeps_shown_with_frame | apply keeps_shown_ret]. }
  apply shows_tail.
Qed.

(** X10: whatever a request is given and however it ends, the only thing
    it changes in the caller's datasets is the column ['hover_text'] of
    the datasets it hands to a builder (the region dataset only when the
    geometry is given too): every other column of every dataset is as it
    was, and a dataset that no builder received is untouched. *)
Theorem request_writes_only_hover_text
    (dh ds dc : option nat) (parks county : option json)
    (save_png : option string) (lat lon : Q) (style : string) (w : World) :
  let w' :=
    snd (vizualize_findings dh ds dc parks county save_png lat lon style w) in
  (forall r col, col <> "hover_text" -> frames w' r !! col = frames w r !! col)
  /\ (forall r, ~ In r (used_refs dh ds dc county) -> frames w' r = frames w r).
Proof.
  revert w. change (store_step (used_refs dh ds dc county)
    (vizualize_findings dh ds dc parks county save_png lat lon style)).
  unfold vizualize_findings.
  apply store_bind; [apply store_fresh | intros _].
  apply store_bind; [|intros _].
  { destruct dc as [d|], county as [c|]; try apply store_ret.
    apply store_with_frame;
      [simpl; auto | apply add_choropleth_map_writes_only_hover]. }
  apply store_bind; [|intros _].
  { destruct parks; [apply store_on_fig | apply store_ret]. }
  apply store_bind; [|intros _].
  { destruct ds as [d|]; [|apply store_ret].
    apply store_with_frame; [|apply add_schools_layer_writes_only_hover].
    unfold used_refs. apply in_or_app. right. simpl. auto. }
  apply store_bind; [|intros _].
  { destruct dh as [d|]; [|apply store_ret].
    apply store_with_frame; [|apply plotting_houses_writes_only_hover].
    unfold used_refs. apply in_or_app. right. apply in_or_app. right.
    simpl. auto. }
  apply store_bind; [apply store_on_fig | intros _].
  apply store_bind; [apply store_show | intros _].
  destruct save_png; [apply store_write_image | apply store_ret].
Qed.

(** X11: every optional group can be left out.  For any choice of the
    groups supplied, whenever the request returns the traces are, in this
    order, those of the groups supplied: region (only with both dataset
    and geometry), park outline, schools, houses; the layout is the
    finalizer's, and the final figure has been displayed and then
    exported when a path is given.  With no group at all the figure has
    no trace and is still laid out and displayed.  The request does
    return if the datasets supplied are valid (for the houses: a price
    column with at least two distinct values) and the display and the
    export do not fail. *)
Theorem request_layers_follow_supplied_groups
    (dh ds dc : option nat) (parks county : option json)
    (save_png : option string) (lat lon : Q) (style : string) (w : World) :
  ((forall d c, dc = Some d -> county = Some c ->
      valid_region (frames w d) "zipcode" "house_quality" = true) ->
   (forall d, ds = Some d ->
      valid_schools (frames w d) "LAT_CEN" "LONG_CEN" "ABB_NAME" "FEATUREDES"
      = true) ->
   (forall d, dh = Some d ->
      valid_houses (frames w d) "price" "house_quality" "bedrooms" "lat"
                   "long" = true) ->
   (forall fig, show_error fig = None) ->
   (forall path fig, write_image_error path fig = None) ->
   exists w',
     vizualize_findings dh ds dc parks county save_png lat lon style w
     = (inr tt, w'))
  /\ forall w',
       vizualize_findings dh ds dc parks county save_png lat lon style w
       = (inr tt, w') ->
       map layer_kind (data (figure w'))
       = match dc, county with
         | Some _, Some _ => [(true, choropleth_legend)]
         | _, _ => []
         end
         ++ match parks with Some _ => [(false, parks_legend)] | None => [] end
         ++ match ds with Some _ => [(false, schools_legend)] | None => [] end
         ++ match dh with Some _ => [(false, houses_legend)] | None => [] end
       /\ layout (figure w')
          = layout (update_map_layout lat lon style (layers_figure parks))
       /\ shown w'
          = shown w ++ Show (figure w')
              :: match save_png with
                 | Some path => [WriteImage path (figure w')]
                 | None => []
                 end.
Proof.
  split.
  - intros Hr Hs Hh Hshow Hwrite.
    destruct (vizualize_findings_ok dh ds dc parks county save_png lat lon
                style w Hr Hs Hh Hshow Hwrite)
      as (w' & g1 & g2 & g3 & g4 & Erun & _).
    now exists w'.
  - intros w' Erun.
    destruct (vizualize_findings_returns _ _ _ _ _ _ _ _ _ _ _ Erun)
      as (g1 & g2 & g3 & g4 & D & L & Sh & _).
    repeat split; assumption.
Qed.

(** X12: a region dataset without one of its two columns stops the
    request at once: the request raises the builder's
    [ValueError('Missing required column: c')] for the first absent
    column, the figure has no trace, nothing is displayed or exported, and
    no dataset has changed; the outline, school and house groups are not
    reached. *)
Theorem request_stops_at_region_validation
    (dh ds : option nat) (d : nat) (parks : option json) (c : json)
    (save_png : option string) (lat lon : Q) (style : string) (w : World)
    (pre post : list string) (col : string) :
  ["zipcode"; "house_quality"] = pre ++ col :: post ->
  (forall c', In c' pre -> has_column (frames w d) c' = true) ->
  has_column (frames w d) col = false ->
  exists w',
    vizualize_findings dh ds (Some d) parks (Some c) save_png lat lon style w
    = (inl (ValueError ("Missing required column: " +:+ col)), w')
    /\ data (figure w') = []
    /\ shown w' = shown w
    /\ forall r, frames w' r = frames w r.
Proof.
  intros Ereq Hpre Hcol. unfold vizualize_findings.
  unfold bind at 1. unfold fresh_figure at 1, modify at 1.
  set (w0 := mkWorld (frames w) new_figure (shown w) (calls w)).
  assert (Erun : add_choropleth_map c "zipcode" "house_quality"
                   choropleth_legend (frames w0 d, figure w0)
                 = (inl (ValueError ("Missing required column: " +:+ col)),
                    (frames w0 d, figure w0))).
  { unfold add_choropleth_map. cbv zeta. rewrite Ereq.
    apply bind_raise. now apply ensure_columns_first_missing. }
  eexists. split.
  - apply bind_raise. unfold with_frame. rewrite Erun. reflexivity.
  - simpl. split; [reflexivity|]. split; [reflexivity|].
    intros r. unfold store_frame.
    destruct (Nat.eqb_spec r d) as [-> | Hne]; reflexivity.
Qed.

End AnyRequest.

Lemma request_display_and_export_witness :
  exists w',
    @vizualize_findings sample_runtime failing_export (Some 0) None None None
      None (Some "map.xyz") (473464 # 10000) (-1219861 # 10000)
      "open-street-map" sample_world
    = (inl (ValueError "Invalid format"), w')
    /\ shown w' = shown sample_world ++ [Show (figure w')].
Proof.
  pose proof (@request_display_and_export sample_runtime failing_export
                (Some 0) None None None None (Some "map.xyz")
                (473464 # 10000) (-1219861 # 10000) "open-street-map"
                sample_world) as Hreq.
  destruct (@vizualize_findings sample_runtime failing_export (Some 0) None
              None None None (Some "map.xyz") (473464 # 10000)
              (-1219861 # 10000) "open-street-map" sample_world)
    as [[e | []] w'] eqn:Erun.
  - exists w'. vm_compute in Erun. injection Erun as <- Ew.
    split; [reflexivity|].
    destruct Hreq as [Hnone | (path & _ & _ & Hshown)]; [|exact Hshown].
    rewrite <- Ew in Hnone. vm_compute in Hnone. discriminate.
  - vm_compute in Erun. discriminate.
Defined.

Lemma request_layers_follow_supplied_groups_witness :
  exists w',
    @vizualize_findings sample_runtime sample_renderer (Some 0) None None None
      None None (473464 # 10000) (-1219861 # 10000) "open-street-map"
      sample_world
    = (inr tt, w')
    /\ map layer_kind (data (figure w')) = [(false, houses_legend)]
    /\ layout (figure w')
       = layout (update_map_layout (473464 # 10000) (-1219861 # 10000)
                   "open-street-map" new_figure)
    /\ shown w' = shown sample_world ++ [Show (figure w')].
Proof.
  destruct (@request_layers_follow_supplied_groups sample_runtime
              sample_renderer (Some 0) None None None None None
              (473464 # 10000) (-1219861 # 10000) "open-street-map"
              sample_world)
    as [Hruns Hlayers].
  destruct Hruns as [w' Erun];
    [discriminate | discriminate | intros d [= <-]; reflexivity
    | reflexivity | reflexivity |].
  exists w'. split; [exact Erun|]. exact (Hlayers w' Erun).
Defined.

Lemma request_writes_only_hover_text_witness :
  frames
    (snd (@vizualize_findings sample_runtime sample_renderer (Some 0) None
            None None None None (473464 # 10000) (-1219861 # 10000)
            "open-street-map" sample_world))
    1
  = frames sample_world 1.
Proof.
  apply (@request_writes_only_hover_text sample_runtime sample_renderer
           (Some 0) None None None None None (473464 # 10000)
           (-1219861 # 10000) "open-street-map" sample_world).
  simpl. intros [E | []]. discriminate.
Defined.

Lemma request_stops_at_region_validation_witness :
  exists w',
    @vizualize_findings sample_runtime sample_renderer (Some 0) (Some 1)
      (Some 0) (Some sample_parks) (Some sample_counties) (Some "map.png")
      (473464 # 10000) (-1219861 # 10000) "open-street-map" sample_world
    = (inl (ValueError "Missing required column: zipcode"), w')
    /\ data (figure w') = []
    /\ shown w' = shown sample_world
    /\ forall r, frames w' r = frames sample_world r.
Proof.
  apply (@request_stops_at_region_validation sample_runtime sample_renderer
           (Some 0) (Some 1) 0 (Some sample_parks) sample_counties
           (Some "map.png") (473464 # 10000) (-1219861 # 10000)
           "open-street-map" sample_world [] ["house_quality"] "zipcode");
    [reflexivity | intros c' [] | reflexivity].
Defined.

(** ** The layout: finalizer and park overlay together *)

(** X13: [update_map_layout] neither sees nor disturbs the layers.  A
    later call replaces everything an earlier call set (the last centre
    and style win); and finalizing before or after
    [add_park_outlines_layer] gives the same figure, so the layout does
    not depend on whether the finalizer ran before or after the layers. *)
Theorem update_map_layout_order_is_immaterial (fig : Figure)
    (lat lon lat' lon' : Q) (style style' : string) (parks : json)
    (legend : string) :
  update_map_layout lat lon style (update_map_layout lat' lon' style' fig)
  = update_map_layout lat lon style fig
  /\ update_map_layout lat lon style (add_park_outlines_layer parks legend fig)
     = add_park_outlines_layer parks legend
         (update_map_layout lat lon style fig)
  /\ mapbox_layers (layout (update_map_layout lat lon style fig))
     = mapbox_layers (layout fig).
Proof. repeat split. Qed.

Lemma update_layer_park_twice (parks : json) (l : MapboxLayer) :
  update_layer (park_layer_dict parks) (update_layer (park_layer_dict parks) l)
  = update_layer (park_layer_dict parks) l.
Proof. reflexivity. Qed.

(** X14: registering the same park geometry again changes nothing in the
    layout, whatever overlays the figure had: after a second
    [add_park_outlines_layer] with the same parks the layout is the one
    the first call left (only the trace list grows).  The call never
    changes any layout property other than the overlay list, and the
    entries that were there keep the properties that the builder does not
    name. *)
Theorem park_overlay_registration_is_idempotent (fig : Figure)
    (parks : json) (legend legend2 : string) :
  let fig1 := add_park_outlines_layer parks legend fig in
  layout (add_park_outlines_layer parks legend2 fig1) = layout fig1
  /\ (mapbox_style (layout fig1), mapbox_zoom (layout fig1),
      mapbox_center_lat (layout fig1), mapbox_center_lon (layout fig1),
      margin (layout fig1), Plotly.legend (layout fig1), width (layout fig1),
      height (layout fig1))
     = (mapbox_style (layout fig), mapbox_zoom (layout fig),
        mapbox_center_lat (layout fig), mapbox_center_lon (layout fig),
        margin (layout fig), Plotly.legend (layout fig), width (layout fig),
        height (layout fig))
  /\ (mapbox_layers (layout fig) <> [] ->
      map ly_other (mapbox_layers (layout fig1))
      = map ly_other (mapbox_layers (layout fig))).
Proof.
  intros fig1. subst fig1. split; [|split].
  - unfold add_park_outlines_layer, update_layout_mapbox_layers. simpl.
    f_equal. rewrite !update_layers_single.
    destruct (mapbox_layers (layout fig)) as [|l cur]; [reflexivity|].
    simpl. f_equal. rewrite map_map. apply map_ext. intros l'.
    apply update_layer_park_twice.
  - reflexivity.
  - intros Hne. unfold add_park_outlines_layer, update_layout_mapbox_layers.
    simpl. rewrite update_layers_single.
    destruct (mapbox_layers (layout fig)) as [|l cur]; [contradiction|].
    rewrite map_map. reflexivity.
Qed.

(** ** cust_func.py: the correlation grid *)

Lemma short_text_table :
  forallb (fun k => short_text_ok false (Z.of_nat k)
                    && short_text_ok true (Z.of_nat k))
          (seq 0 101) = true.
Proof. vm_compute. reflexivity. Qed.

(** Dropping ["0."] from a number with two decimals and at most 100
    hundredths drops the leading zero and nothing else. *)
Lemma replace_fixed2 (negative : bool) (n : Z) :
  (0 <= n <= 100)%Z ->
  PyStr.replace "0." "." (PyStr.fixed2 negative n) = short_text negative n.
Proof.
  intros Hn. pose proof short_text_table as T.
  rewrite forallb_forall in T.
  specialize (T (Z.to_nat n)).
  rewrite Z2Nat.id in T by lia.
  assert (Hin : In (Z.to_nat n) (seq 0 101)) by (apply in_seq; lia).
  specialize (T Hin). apply andb_prop in T. destruct T as [Tf Tt].
  unfold short_text_ok in *.
  destruct negative; [apply String.eqb_eq in Tt | apply String.eqb_eq in Tf];
    assumption.
Qed.

(** A value in [[-1, 1]] has between 0 and 100 hundredths after
    rounding. *)
Lemma hundredths_unit (q : Q) :
  (-1 <= q <= 1)%Q -> (0 <= PyStr.hundredths q <= 100)%Z.
Proof.
  intros [Hlo Hhi]. unfold Qle in Hlo, Hhi. simpl in Hlo, Hhi.
  unfold PyStr.hundredths.
  set (num := (Z.abs (Qnum q) * 100)%Z).
  set (den := Z.pos (Qden q)).
  assert (Hden : (0 < den)%Z) by (subst den; lia).
  assert (Hnum : (0 <= num <= 100 * den)%Z) by (subst num den; lia).
  pose proof (Z.div_mod num den ltac:(lia)) as Hdm.
  pose proof (Z.mod_pos_bound num den Hden) as Hmod.
  assert (Hf0 : (0 <= num / den)%Z) by (apply Z.div_pos; lia).
  assert (Hf : (num / den <= 100)%Z)
    by (apply Z.div_le_upper_bound; lia).
  destruct (Z.compare_spec (2 * (num mod den)) den) as [E | L | G].
  - destruct (Z.even (num / den)); [lia|].
    assert ((num / den <> 100)%Z) by nia. lia.
  - lia.
  - assert ((num / den <> 100)%Z) by nia. lia.
Qed.

Section CorrelationGrid.
Context `{CustFunc.Stats}.
Local Open Scope Q_scope.

(** X15: [corrfunc] annotates, at (0.75, 0.7), the significance of the
    p-value that [pearsonr] returns, compared with the floats [0.05],
    [0.01] and [0.001] (each a little above the decimal fraction):
    ["***"] for [p <= 0.001], ["**"] for [0.001 < p <= 0.01], ["*"] for
    [0.01 < p <= 0.05] and the empty text for [p > 0.05]; a [nan] p-value
    gives the empty text (no comparison holds). *)
Theorem corrfunc_significance_tiers (x y : list Q) (r p : fnum) :
  CustFunc.pearsonr x y = inr (r, p) ->
  exists stars,
    CustFunc.corrfunc x y = inr (stars, (3 # 4, float_0_7))
    /\ (p = NaN -> stars = "")
    /\ (forall q, p = Finite q ->
          (q <= float_0_001 -> stars = "***")
          /\ (float_0_001 < q -> q <= float_0_01 -> stars = "**")
          /\ (float_0_01 < q -> q <= float_0_05 -> stars = "*")
          /\ (float_0_05 < q -> stars = ""))
    /\ 1 # 1000 < float_0_001 /\ 1 # 100 < float_0_01
    /\ 5 # 100 < float_0_05.
Proof.
  intros E. unfold CustFunc.corrfunc. rewrite E.
  assert (O1 : float_0_001 < float_0_01) by reflexivity.
  assert (O2 : float_0_01 < float_0_05) by reflexivity.
  eexists. split; [reflexivity|].
  split; [intros ->; reflexivity|].
  split; [|repeat split].
  intros q ->. unfold CustFunc.p_stars, fle.
  repeat split.
  - intros H3. apply Qle_bool_iff in H3. now rewrite H3.
  - intros L3 H2. apply Qle_bool_false in L3. apply Qle_bool_iff in H2.
    now rewrite L3, H2.
  - intros L2 H1. assert (L3 : float_0_001 < q) by lra.
    apply Qle_bool_false in L3, L2. apply Qle_bool_iff in H1.
    now rewrite L3, L2, H1.
  - intros L1. assert (L2 : float_0_01 < q) by lra.
    assert (L3 : float_0_001 < q) by lra.
    apply Qle_bool_false in L3, L2, L1. now rewrite L3, L2, L1.
Qed.

(** X16: for a correlation [r] in [[-1, 1]], [corrdot] draws a dot of
    size [|r| * 10000], between 0 and 10000, coloured by [r], and writes
    [r] with two decimals and without its leading zero (["-.50"],
    [".07"], and ["1.00"] or ["-1.00"] at the ends) in a font of size
    [|r| * 40 + 5], between 5 and 45. *)
Theorem corrdot_of_a_correlation (a b : list Q) (r : Q) :
  CustFunc.series_corr a b = Finite r -> -1 <= r <= 1 ->
  exists size font,
    CustFunc.corrdot a b
    = CustFunc.mkCorrDot (Finite size) (Finite r)
        (short_text (Qsign_neg r) (PyStr.hundredths r)) (Finite font)
    /\ size == Qabs r * 10000 /\ 0 <= size <= 10000
    /\ font == Qabs r * 40 + 5 /\ 5 <= font <= 45
    /\ (0 <= PyStr.hundredths r <= 100)%Z.
Proof.
  intros E Hr. pose proof (hundredths_unit r Hr) as Hn.
  unfold CustFunc.corrdot. rewrite E. simpl.
  unfold CustFunc.corr_text. simpl. rewrite (replace_fixed2 _ _ Hn).
  eexists _, _. split; [reflexivity|].
  assert (Ha : 0 <= Qabs r <= 1).
  { split; [apply Qabs_nonneg|]. apply Qabs_Qle_condition. exact Hr. }
  repeat split; try reflexivity; try lra; lia.
Qed.

End CorrelationGrid.

Lemma corrfunc_significance_tiers_witness :
  exists stars,
    @CustFunc.corrfunc sample_stats [1; 2; 3]%Q [3; 2; 1]%Q
    = inr (stars, (3 # 4, float_0_7))
    /\ (forall q, Finite 0 = Finite q ->
          (q <= float_0_001 -> stars = "***")
          /\ (float_0_001 < q -> q <= float_0_01 -> stars = "**")
          /\ (float_0_01 < q -> q <= float_0_05 -> stars = "*")
          /\ (float_0_05 < q -> stars = ""))%Q.
Proof.
  destruct (@corrfunc_significance_tiers sample_stats [1; 2; 3]%Q [3; 2; 1]%Q
              (Finite (-1)) (Finite 0))
    as (stars & E & _ & Htiers & _); [reflexivity|].
  exists stars. split; [exact E | exact Htiers].
Defined.

Lemma corrdot_of_a_correlation_witness :
  exists size font,
    @CustFunc.corrdot sample_stats [1; 2; 3]%Q [3; 2; 1]%Q
    = CustFunc.mkCorrDot (Finite size) (Finite (-1))
        (short_text (Qsign_neg (-1)) (PyStr.hundredths (-1))) (Finite font)
    /\ (size == Qabs (-1) * 10000 /\ 0 <= size <= 10000
        /\ font == Qabs (-1) * 40 + 5 /\ 5 <= font <= 45)%Q
    /\ (0 <= PyStr.hundredths (-1) <= 100)%Z.
Proof.
  destruct (@corrdot_of_a_correlation sample_stats [1; 2; 3]%Q [3; 2; 1]%Q
              (-1)%Q) as (size & font & E & Hs & Hsb & Hf & Hfb & Hn);
    [reflexivity | split; discriminate |].
  exists size, font. repeat split; try assumption; apply Hsb || apply Hfb
    || apply Hn.
Defined.

(** ** eda_tables.py: the table of missing values *)

Lemma isna_sum_le (col : list (option EdaTables.cell)) :
  EdaTables.isna_sum col <= length col.
Proof. induction col as [|[c|] col IH]; simpl; lia. Qed.

Section MissingValues.
Local Open Scope Q_scope.

Lemma percentage_bounds (s n : nat) :
  (0 < n)%nat -> (s <= n)%nat ->
  let p := inject_Z (Z.of_nat s) / inject_Z (Z.of_nat n) * 100 in
  0 <= p <= 100 /\ (p == 0 <-> s = 0%nat) /\ (p == 100 <-> s = n).
Proof.
  intros Hn Hs p.
  assert (Hn' : 0 < inject_Z (Z.of_nat n)).
  { change 0 with (inject_Z 0). rewrite <- Zlt_Qlt. lia. }
  assert (Hs0 : 0 <= inject_Z (Z.of_nat s)).
  { change 0 with (inject_Z 0). rewrite <- Zle_Qle. lia. }
  assert (Hsn : inject_Z (Z.of_nat s) <= inject_Z (Z.of_nat n)).
  { rewrite <- Zle_Qle. lia. }
  assert (Hge : 0 <= inject_Z (Z.of_nat s) / inject_Z (Z.of_nat n))
    by (apply Qle_shift_div_l; lra).
  assert (Hle : inject_Z (Z.of_nat s) / inject_Z (Z.of_nat n) <= 1)
    by (apply Qle_shift_div_r; lra).
  assert (Hmul : inject_Z (Z.of_nat s) / inject_Z (Z.of_nat n)
                 * inject_Z (Z.of_nat n) == inject_Z (Z.of_nat s))
    by (field; lra).
  subst p. split; [split; lra|]. split; split.
  - intros E.
    assert (E0 : inject_Z (Z.of_nat s) == 0).
    { rewrite <- Hmul.
      assert (Hz : inject_Z (Z.of_nat s) / inject_Z (Z.of_nat n) == 0)
        by lra.
      rewrite Hz. ring. }
    unfold Qeq in E0. simpl in E0. lia.
  - intros ->. simpl. reflexivity.
  - intros E.
    assert (E1 : inject_Z (Z.of_nat s) == inject_Z (Z.of_nat n)).
    { rewrite <- Hmul at 1.
      assert (Hz : inject_Z (Z.of_nat s) / inject_Z (Z.of_nat n) == 1)
        by lra.
      rewrite Hz. ring. }
    unfold Qeq in E1. simpl in E1. lia.
  - intros ->. field. lra.
Qed.

(** X17: for a DataFrame with at least one row, the table of missing
    values that [explore] prints has one row per column, in the order of
    the columns, with the number of missing cells of that column (at most
    the number of rows) and its percentage
    [sum / len(df) * 100], which lies between 0 and 100, is 0 exactly
    when no cell is missing and 100 exactly when every cell is. *)
Theorem missing_df_percentages (df : EdaTables.Frame) :
  EdaTables.well_formed df -> (0 < EdaTables.nrows df)%nat ->
  map EdaTables.mr_column (EdaTables.missing_df df)
  = map fst (EdaTables.columns df)
  /\ map EdaTables.mr_sum (EdaTables.missing_df df)
     = map (fun c => EdaTables.isna_sum (snd c)) (EdaTables.columns df)
  /\ Forall (fun row =>
               (EdaTables.mr_sum row <= EdaTables.nrows df)%nat
               /\ exists p,
                    EdaTables.mr_perc row = Finite p
                    /\ p == inject_Z (Z.of_nat (EdaTables.mr_sum row))
                            / inject_Z (Z.of_nat (EdaTables.nrows df)) * 100
                    /\ 0 <= p <= 100
                    /\ (p == 0 <-> EdaTables.mr_sum row = 0%nat)
                    /\ (p == 100
                        <-> EdaTables.mr_sum row = EdaTables.nrows df))
            (EdaTables.missing_df df).
Proof.
  intros Hwf Hn. unfold EdaTables.missing_df.
  split; [rewrite map_map; reflexivity|].
  split; [rewrite map_map; reflexivity|].
  unfold EdaTables.well_formed in Hwf. rewrite List.Forall_forall in Hwf.
  apply List.Forall_forall. intros row Hrow.
  apply in_map_iff in Hrow. destruct Hrow as ([name col] & <- & Hin).
  pose proof (Hwf _ Hin) as Hlen. simpl in *.
  assert (Hs : (EdaTables.isna_sum col <= EdaTables.nrows df)%nat).
  { rewrite <- Hlen. apply isna_sum_le. }
  split; [exact Hs|].
  assert (Hz : Qis_zero (inject_Z (Z.of_nat (EdaTables.nrows df))) = false).
  { unfold Qis_zero. simpl. apply Z.eqb_neq. lia. }
  rewrite Hz. eexists. split; [reflexivity|].
  split; [reflexivity|].
  apply (percentage_bounds (EdaTables.isna_sum col) (EdaTables.nrows df)
           Hn Hs).
Qed.

(** X18: for a DataFrame without rows the division by [len(df)] is a
    division of zero by zero: every column is reported with 0 missing
    cells and a percentage that is [nan], and nothing is raised. *)
Theorem missing_df_of_empty_frame (df : EdaTables.Frame) :
  EdaTables.well_formed df -> EdaTables.nrows df = 0%nat ->
  length (EdaTables.missing_df df) = length (EdaTables.columns df)
  /\ Forall (fun row =>
               EdaTables.mr_sum row = 0%nat /\ EdaTables.mr_perc row = NaN)
            (EdaTables.missing_df df).
Proof.
  intros Hwf Hn. unfold EdaTables.missing_df.
  split; [apply length_map|].
  unfold EdaTables.well_formed in Hwf. rewrite List.Forall_forall in Hwf.
  apply List.Forall_forall. intros row Hrow.
  apply in_map_iff in Hrow. destruct Hrow as ([name col] & <- & Hin).
  pose proof (Hwf _ Hin) as Hlen. simpl in *. rewrite Hn in *.
  destruct col; [|discriminate]. split; reflexivity.
Qed.

End MissingValues.

Lemma missing_df_percentages_witness :
  map EdaTables.mr_column (EdaTables.missing_df sample_report_frame)
  = map fst (EdaTables.columns sample_report_frame).
Proof.
  apply (missing_df_percentages sample_report_frame);
    [repeat constructor | simpl; lia].
Defined.

Lemma missing_df_of_empty_frame_witness :
  length (EdaTables.missing_df sample_empty_frame)
  = length (EdaTables.columns sample_empty_frame).
Proof.
  apply (missing_df_of_empty_frame sample_empty_frame);
    [repeat constructor | reflexivity].
Defined.
